(** * downloadTransmission: sequential chunk download, manifest and merge

    A shallow embedding of [src/main.py] and the verification of its
    specification.  The program talks to three outside parties: an HTTP
    server, the file system and the [ffmpeg] executable.  They are modelled
    as follows.

    - The file system is a finite map from path strings to file contents
      (byte strings).  Distinct path strings name distinct files; directory
      creation and writes succeed.
    - The HTTP server and the external tool are functions supplied by the
      environment ([remote] and [tool] below).
    - Every primitive effect is recorded, in order, in a trace, so that
      statements about which calls were issued can be made.
    - [while True] is run with a bound on the number of iterations; a run
      that needs more iterations ends in [OutOfFuel]. *)

From stdpp Require Import base strings pretty list list_numbers gmap fin_maps.
From Stdlib Require Import ZArith Lia Ascii.

Local Open Scope Z_scope.

(** ** Python values *)

(** [str] of an [int]: decimal digits, with a leading minus sign. *)
Definition str (n : Z) : string := pretty n.

Definition newline_char : ascii := ascii_of_nat 10.
Definition newline : string := String newline_char "".

(** A [dict] of header names to header values. *)
Abbreviation dict := (gmap string string).

(** [headers or {}]: [None] and the empty dict are falsy. *)
Definition or_empty (headers : option dict) : dict := default ∅ headers.

(** [range(a, b)] *)
Definition range (a b : Z) : list Z := seqZ a (b - a).

(** ** Exceptions and results *)

Inductive exn : Type :=
  | ConnectionError (msg : string)
  | Timeout (msg : string)
  | FileNotFoundError (filename : string)
  | CalledProcessError (returncode : Z) (cmd : list string)
      (output : option string) (stderr : option string).

Inductive outcome (A : Type) : Type :=
  | Ret (a : A)
  | Raise (e : exn)
  | OutOfFuel.
Arguments Ret {A} a.
Arguments Raise {A} e.
Arguments OutOfFuel {A}.

(** ** The world: files, trace of primitive effects, console *)

Inductive open_mode : Type := ModeW | ModeWB.

Inductive event : Type :=
  | EvMakedirs (path : string)
  | EvExists (path : string)
  | EvGet (url : string) (hdrs : dict)
  | EvOpen (path : string) (mode : open_mode)
  | EvWrite (path : string) (data : string)
  | EvRun (cmd : list string).

Record world : Type := World {
  files : gmap string string;
  trace : list event;
  console : list string
}.

Definition M (A : Type) : Type := world → outcome A * world.

Global Instance M_ret : MRet M := λ A a w, (Ret a, w).
Global Instance M_bind : MBind M := λ A B k m w,
  match m w with
  | (Ret a, w') => k a w'
  | (Raise e, w') => (Raise e, w')
  | (OutOfFuel, w') => (OutOfFuel, w')
  end.

Definition raise {A} (e : exn) : M A := λ w, (Raise e, w).
Definition out_of_fuel {A} : M A := λ w, (OutOfFuel, w).

Definition emit (e : event) (w : world) : world :=
  World (files w) (trace w ++ [e]) (console w).

Definition print (s : string) : M unit := λ w,
  (Ret (), World (files w) (trace w) (console w ++ [s])).

(** ** The environment *)

Record response : Type := Response { status_code : Z; content : string }.

(** What [requests.get] does for a URL and headers: it returns a response,
    or raises (connection refused, timeout, ...). *)
Inductive fetch_result : Type :=
  | Responded (r : response)
  | Failed (e : exn).

Definition remote_t : Type := string → dict → fetch_result.

(** What running the external tool does: the executable is missing, or it
    exits with a status, having written [output] to its standard streams
    and left the files as [files_after]. *)
Inductive tool_result : Type :=
  | ToolNotFound
  | Exited (returncode : Z) (output : string) (files_after : gmap string string).

Definition tool_t : Type := list string → gmap string string → tool_result.

(** ** Library calls *)

(** [os.path.join(a, b)] of [posixpath]. *)
Definition startswith_sep (s : string) : bool :=
  match s with
  | String c _ => bool_decide (c = "/"%char)
  | EmptyString => false
  end.

Fixpoint endswith_sep (s : string) : bool :=
  match s with
  | EmptyString => false
  | String c EmptyString => bool_decide (c = "/"%char)
  | String _ s' => endswith_sep s'
  end.

Definition os_path_join (a b : string) : string :=
  if startswith_sep b then b
  else if bool_decide (a = "") || endswith_sep a then a +:+ b
  else a +:+ "/" +:+ b.

Definition os_makedirs (path : string) : M unit := λ w,
  (Ret (), emit (EvMakedirs path) w).

Definition os_path_exists (path : string) : M bool := λ w,
  (Ret (bool_decide (is_Some (files w !! path))), emit (EvExists path) w).

(** [open(path, mode)] with a writing mode: the file is created, or
    truncated when it exists.  The handle is the path. *)
Definition open_file (path : string) (mode : open_mode) : M string := λ w,
  (Ret path,
   World (<[path := ""]> (files w)) (trace w ++ [EvOpen path mode]) (console w)).

(** [f.write(data)]: the data are appended at the handle's position. *)
Definition file_write (f : string) (data : string) : M unit := λ w,
  (Ret (),
   World (<[f := default "" (files w !! f) +:+ data]> (files w))
         (trace w ++ [EvWrite f data]) (console w)).

Definition requests_get (remote : remote_t) (url : string) (hdrs : dict)
    : M response := λ w,
  match remote url hdrs with
  | Responded r => (Ret r, emit (EvGet url hdrs) w)
  | Failed e => (Raise e, emit (EvGet url hdrs) w)
  end.

Record completed_process : Type := CompletedProcess {
  cp_args : list string;
  cp_returncode : Z;
  cp_stdout : option string;
  cp_stderr : option string
}.

(** [subprocess.run(args, check=check)].  Nothing is captured: the child
    inherits the standard streams, so what it prints goes to the console,
    and the [stdout] and [stderr] fields are [None]. *)
Definition subprocess_run (tool : tool_t) (args : list string) (check : bool)
    : M completed_process := λ w,
  match tool args (files w) with
  | ToolNotFound =>
      (Raise (FileNotFoundError (hd "" args)), emit (EvRun args) w)
  | Exited rc out fs' =>
      let w' := World fs' (trace w ++ [EvRun args]) (console w ++ [out]) in
      if check && negb (rc =? 0)
      then (Raise (CalledProcessError rc args None None), w')
      else (Ret (CompletedProcess args rc None None), w')
  end.

(** [for x in xs: body(x)] *)
Fixpoint for_each {A} (xs : list A) (body : A → M unit) : M unit :=
  match xs with
  | [] => mret ()
  | x :: xs' => body x;; for_each xs' body
  end.

(** ** The program *)

Inductive ctl : Type := Continue | Break.

Record locals : Type := Locals { chunk_number : Z; downloaded_any : bool }.

Section program.
Context (remote : remote_t) (tool : tool_t).

Section download.
Context (base_url chunk_prefix chunk_suffix output_dir : string)
        (headers : option dict).

Definition chunk_name_of (n : Z) : string :=
  chunk_prefix +:+ str n +:+ chunk_suffix.
Definition url_of (n : Z) : string := base_url +:+ chunk_name_of n.
Definition output_file_of (n : Z) : string :=
  os_path_join output_dir (chunk_name_of n).

(** One pass through the body of [while True]. *)
Definition loop_body (l : locals) : M (ctl * locals) :=
  let chunk_name := chunk_name_of (chunk_number l) in
  let url := url_of (chunk_number l) in
  let output_file := output_file_of (chunk_number l) in
  present ← os_path_exists output_file;
  if present : bool then
    print ("Chunk '" +:+ chunk_name +:+ "' já existe em '" +:+ output_dir
           +:+ "'. Pulando...");;
    mret (Continue, Locals (chunk_number l + 1) (downloaded_any l))
  else
    print ("Baixando: " +:+ url);;
    response ← requests_get remote url (or_empty headers);
    if negb (status_code response =? 200) then
      print ("Parando. Resposta HTTP " +:+ str (status_code response)
             +:+ " para '" +:+ chunk_name +:+ "'.");;
      mret (Break, l)
    else
      f ← open_file output_file ModeWB;
      file_write f (content response);;
      mret (Continue, Locals (chunk_number l + 1) true).

Fixpoint while_true (fuel : nat) (l : locals) : M locals :=
  match fuel with
  | O => out_of_fuel
  | S fuel' =>
      r ← loop_body l;
      match r with
      | (Continue, l') => while_true fuel' l'
      | (Break, l') => mret l'
      end
  end.

Definition download_chunks (fuel : nat) (start_chunk : Z) : M Z :=
  os_makedirs output_dir;;
  print "Iniciando download dos chunks...";;
  l ← while_true fuel (Locals start_chunk false);
  if negb (downloaded_any l) then
    print "Nenhum chunk foi baixado.";;
    mret 0
  else
    let last_chunk := chunk_number l - 1 in
    print ("Último chunk baixado com sucesso: " +:+ str last_chunk);;
    mret last_chunk.
End download.

Definition create_concat_file (output_dir : string) (last_chunk : Z)
    (chunk_prefix chunk_suffix : string) : M string :=
  let concat_path := os_path_join output_dir "file_list.txt" in
  print ("Criando arquivo de concatenação: " +:+ concat_path);;
  f ← open_file concat_path ModeW;
  for_each (range 1 (last_chunk + 1)) (λ i,
    let chunk_name := chunk_prefix +:+ str i +:+ chunk_suffix in
    file_write f ("file '" +:+ chunk_name +:+ "'" +:+ newline));;
  mret concat_path.

Definition ffmpeg_command (concat_file_path output_mp4 : string)
    : list string :=
  ["ffmpeg"; "-f"; "concat"; "-safe"; "0"; "-i"; concat_file_path;
   "-c"; "copy"; output_mp4].

Definition merge_chunks_into_mp4 (concat_file_path output_mp4 : string)
    : M unit :=
  print ("Iniciando a conversão para " +:+ output_mp4 +:+ "...");;
  subprocess_run tool (ffmpeg_command concat_file_path output_mp4) true;;
  print ("Conversão finalizada! Arquivo gerado: " +:+ output_mp4).

(** The settings of [main]. *)
Definition main_base_url : string := "https://SEU_URL_DE_CHUNKS_AQUI/".
Definition main_chunk_prefix : string := "video".
Definition main_chunk_suffix : string := ".ts".
Definition main_output_dir : string := "./chunks".
Definition main_output_mp4 : string := "minha_transmissao.mp4".
Definition main_headers : dict := {[ "User-Agent" := "Mozilla/5.0" ]}.

(** Steps 2 to 4 of [main]: what is done with the value returned by
    [download_chunks]. *)
Definition main_from_step2 (last_chunk_downloaded : Z) : M unit :=
  if last_chunk_downloaded =? 0 then
    print "Encerrando script. Nenhum chunk válido foi encontrado."
  else
    concat_file_path ← create_concat_file main_output_dir
      last_chunk_downloaded main_chunk_prefix main_chunk_suffix;
    merge_chunks_into_mp4 concat_file_path main_output_mp4;;
    print "Processo concluído com sucesso!".

(** [main]; [start_chunk] is left at its default, 1. *)
Definition main (fuel : nat) : M unit :=
  last_chunk_downloaded ← download_chunks main_base_url main_chunk_prefix
    main_chunk_suffix main_output_dir (Some main_headers) fuel 1;
  main_from_step2 last_chunk_downloaded.

End program.

(** ** Summary of a run

    What a run of the loop does is determined by which segment files are on
    disk when it starts and by what the server answers. *)

Section run_summary.
Context (remote : remote_t)
        (base_url chunk_prefix chunk_suffix output_dir : string)
        (headers : option dict).

Local Abbreviation output_file :=
  (output_file_of chunk_prefix chunk_suffix output_dir).
Local Abbreviation url := (url_of base_url chunk_prefix chunk_suffix).

(** The segment file of index [n] exists. *)
Definition on_disk (fs : gmap string string) (n : Z) : bool :=
  bool_decide (is_Some (fs !! output_file n)).

(** The answer to the request for index [n]. *)
Definition fetch (n : Z) : fetch_result := remote (url n) (or_empty headers).

(** The request for index [n] is answered with status 200. *)
Definition fetch_ok (n : Z) : bool :=
  match fetch n with
  | Responded r => status_code r =? 200
  | Failed _ => false
  end.

Definition fetch_content (n : Z) : string :=
  match fetch n with
  | Responded r => content r
  | Failed _ => ""
  end.

(** Index [n] is on disk or can be fetched: the loop goes past it. *)
Definition available (fs : gmap string string) (n : Z) : bool :=
  on_disk fs n || fetch_ok n.

(** The indices from [n] up to, not including, [t] that are not on disk. *)
Definition fetched (fs : gmap string string) (n t : Z) : list Z :=
  filter (λ i, on_disk fs i = false) (seqZ n (t - n)).

(** The effects of one iteration that goes past index [i]. *)
Definition segment_events (fs : gmap string string) (i : Z) : list event :=
  EvExists (output_file i) ::
  (if on_disk fs i then []
   else [EvGet (url i) (or_empty headers);
         EvOpen (output_file i) ModeWB;
         EvWrite (output_file i) (fetch_content i)]).

(** The effects of the iteration that ends the loop at index [t]. *)
Definition stop_events (t : Z) : list event :=
  [EvExists (output_file t); EvGet (url t) (or_empty headers)].

Definition run_events (fs : gmap string string) (n t : Z) : list event :=
  seqZ n (t - n) ≫= segment_events fs.

(** The files once the segments of the indices [ixs] have been stored. *)
Definition store_all (fs : gmap string string) (ixs : list Z)
    : gmap string string :=
  foldl (λ m i, <[output_file i := fetch_content i]> m) fs ixs.

Definition run_files (fs : gmap string string) (n t : Z)
    : gmap string string :=
  store_all fs (fetched fs n t).

(** The loop started at index [n] ends at index [t]: every index before
    [t] is on disk or fetched, and [t] is neither. *)
Definition stops_at (fs : gmap string string) (n t : Z) : Prop :=
  n ≤ t ∧ (∀ i, n ≤ i < t → available fs i = true) ∧ available fs t = false.

(** The value returned by a run from [n] that ends at [t]. *)
Definition return_value (fs : gmap string string) (n t : Z) : Z :=
  if bool_decide (fetched fs n t ≠ []) then t - 1 else 0.

(** How a run from [n] that ends at [t] finishes. *)
Definition run_result (fs : gmap string string) (n t : Z) : outcome Z :=
  match fetch t with
  | Responded _ => Ret (return_value fs n t)
  | Failed e => Raise e
  end.
End run_summary.

(** Projections of a trace. *)
Definition checked_paths (tr : list event) : list string :=
  omap (λ e, match e with EvExists p => Some p | _ => None end) tr.

Definition requested_urls (tr : list event) : list string :=
  omap (λ e, match e with EvGet u _ => Some u | _ => None end) tr.

(** The files after the effects of a trace, one after the other. *)
Definition apply_event (fs : gmap string string) (e : event)
    : gmap string string :=
  match e with
  | EvOpen p _ => <[p := ""]> fs
  | EvWrite p d => <[p := default "" (fs !! p) +:+ d]> fs
  | _ => fs
  end.

Definition replay (tr : list event) (fs : gmap string string)
    : gmap string string :=
  foldl apply_event fs tr.

(** ** Scenarios *)

(** A server that answers 200 with the same content for the listed URLs,
    and [miss] for every other URL. *)
Definition serving (ok : list string) (miss : fetch_result) : remote_t :=
  λ url _,
    if bool_decide (url ∈ ok) then Responded (Response 200 "data") else miss.

Definition not_found : fetch_result := Responded (Response 404 "").

Definition empty_world : world := World ∅ [] [].

(** Segments 1 to 3 exist on the server, nothing else does. *)
Definition three_segments : remote_t :=
  serving ["http://host/video1.ts"; "http://host/video2.ts";
           "http://host/video3.ts"] not_found.

(** A server where only segment 0 exists. *)
Definition segment_zero : remote_t :=
  serving ["http://host/video0.ts"] not_found.

(** A server where nothing exists, and one that cannot be reached. *)
Definition no_segments : remote_t := serving [] not_found.
Definition unreachable : remote_t :=
  serving [] (Failed (ConnectionError "Connection refused")).

(** Segments 1 and 2 are on disk. *)
Definition two_on_disk : world :=
  World {[ "./chunks/video1.ts" := "data"; "./chunks/video2.ts" := "data" ]}
        [] [].

(** A tool that fails, printing a diagnostic, and one that succeeds. *)
Definition failing_tool : tool_t :=
  λ _ fs, Exited 1 "Invalid data found when processing input" fs.
Definition working_tool : tool_t := λ _ fs, Exited 0 "" fs.

(** ** Notions of the specification *)

(** The text an exception carries as captured output of a process. *)
Definition captured_output (e : exn) : list string :=
  match e with
  | CalledProcessError _ _ out err => option_list out ++ option_list err
  | _ => []
  end.

(** The first effect of the manifest builder and of the merge invoker. *)
Definition starts_manifest_or_merge (e : event) : bool :=
  match e with
  | EvOpen _ ModeW | EvRun _ => true
  | _ => false
  end.

(** The manifest of [k] segments: one line per index from 1 to [k]. *)
Definition manifest_line (chunk_prefix chunk_suffix : string) (i : Z)
    : string :=
  "file '" +:+ chunk_name_of chunk_prefix chunk_suffix i +:+ "'" +:+ newline.

Definition manifest_lines (chunk_prefix chunk_suffix : string) (k : Z)
    : list string :=
  manifest_line chunk_prefix chunk_suffix <$> seqZ 1 k.

Definition concat_lines (ls : list string) : string :=
  foldr String.append "" ls.





(** A server that answers every request with status 206 and a body. *)
Definition partial_content : remote_t :=
  serving [] (Responded (Response 206 "data")).

(** Segments 1 and 2 exist under the base URL of [main]. *)
Definition main_series : remote_t :=
  serving ["https://SEU_URL_DE_CHUNKS_AQUI/video1.ts";
           "https://SEU_URL_DE_CHUNKS_AQUI/video2.ts"] not_found.

(** Segments 1 to 3 exist on the server; any other request cannot be
    completed. *)
Definition three_then_unreachable : remote_t :=
  serving ["http://host/video1.ts"; "http://host/video2.ts";
           "http://host/video3.ts"]
    (Failed (ConnectionError "Connection refused")).

(** * Verification *)

(** ** Names and paths *)

Lemma append_inj_r (t s1 s2 : string) : s1 +:+ t = s2 +:+ t → s1 = s2.
Proof.
  assert (Hlen : ∀ a b : string,
    String.length (a +:+ b) = (String.length a + String.length b)%nat).
  { intros a b. induction a as [|c a IH]; simpl; [done|by rewrite IH]. }
  intros Heq.
  assert (String.length s1 = String.length s2) as Hl.
  { apply (f_equal String.length) in Heq. rewrite !Hlen in Heq. lia. }
  revert s2 Heq Hl. induction s1 as [|c s1 IH]; intros [|c' s2]; simpl;
    try done.
  intros [= -> Heq] [= Hl]. f_equal. by apply IH.
Qed.

Lemma pretty_N_go_head (x : N) (s s0 : string) :
  (0 < x)%N → startswith_sep (pretty_N_go x s +:+ s0) = false.
Proof.
  revert s. induction (N.lt_wf_0 x) as [x _ IH]; intros s Hx.
  rewrite pretty_N_go_step by done.
  destruct (decide (x `div` 10 = 0)%N) as [->|Hd].
  - rewrite pretty_N_go_0. simpl. unfold pretty_N_char.
    by repeat case_match.
  - apply IH; [apply N.div_lt; lia|by apply N.neq_0_lt_0].
Qed.

Lemma str_head (n : Z) (s : string) : startswith_sep (str n +:+ s) = false.
Proof.
  assert (∀ p : positive, ∀ s0 : string,
    startswith_sep (pretty p +:+ s0) = false) as Hpos.
  { intros p s0. unfold pretty, pretty_positive, pretty, pretty_N.
    rewrite decide_False by done. by apply pretty_N_go_head. }
  unfold str, pretty, pretty_Z. destruct n as [|p|p]; [done|apply Hpos|done].
Qed.

Lemma str_inj (n m : Z) : str n = str m → n = m.
Proof. apply (inj (pretty (A:=Z))). Qed.

Lemma os_path_join_inj (a b1 b2 : string) :
  startswith_sep b1 = startswith_sep b2 →
  os_path_join a b1 = os_path_join a b2 → b1 = b2.
Proof.
  unfold os_path_join. intros <-.
  destruct (startswith_sep b1); [done|].
  destruct (bool_decide (a = "") || endswith_sep a); intros Heq.
  - by apply (inj (String.append a)) in Heq.
  - apply (inj (String.append a)) in Heq.
    by apply (inj (String.append "/")) in Heq.
Qed.

Section names.
Context (base_url chunk_prefix chunk_suffix output_dir : string).

Lemma chunk_name_of_inj (n m : Z) :
  chunk_name_of chunk_prefix chunk_suffix n
  = chunk_name_of chunk_prefix chunk_suffix m → n = m.
Proof.
  unfold chunk_name_of. intros Heq.
  apply (inj (String.append chunk_prefix)) in Heq.
  apply append_inj_r in Heq. by apply str_inj.
Qed.

Lemma chunk_name_of_head (n m : Z) :
  startswith_sep (chunk_name_of chunk_prefix chunk_suffix n)
  = startswith_sep (chunk_name_of chunk_prefix chunk_suffix m).
Proof.
  unfold chunk_name_of. destruct chunk_prefix as [|c p]; [|done].
  exact (eq_trans (str_head n _) (eq_sym (str_head m _))).
Qed.

Lemma output_file_of_inj (n m : Z) :
  output_file_of chunk_prefix chunk_suffix output_dir n
  = output_file_of chunk_prefix chunk_suffix output_dir m → n = m.
Proof.
  unfold output_file_of. intros Heq.
  apply os_path_join_inj in Heq; [|apply chunk_name_of_head].
  by apply chunk_name_of_inj in Heq.
Qed.

Lemma url_of_inj (n m : Z) :
  url_of base_url chunk_prefix chunk_suffix n
  = url_of base_url chunk_prefix chunk_suffix m → n = m.
Proof.
  unfold url_of. intros Heq.
  apply (inj (String.append base_url)) in Heq. by apply chunk_name_of_inj.
Qed.
End names.

(** ** One iteration *)

Ltac run_monad :=
  unfold mbind, M_bind, mret, M_ret, os_makedirs, os_path_exists, print,
    requests_get, open_file, file_write, out_of_fuel, raise, emit; simpl.

Section download_proofs.
Context (remote : remote_t)
        (base_url chunk_prefix chunk_suffix output_dir : string)
        (headers : option dict).

Local Abbreviation output_file :=
  (output_file_of chunk_prefix chunk_suffix output_dir).
Local Abbreviation url := (url_of base_url chunk_prefix chunk_suffix).
Local Abbreviation body :=
  (loop_body remote base_url chunk_prefix chunk_suffix output_dir headers).
Local Abbreviation loop :=
  (while_true remote base_url chunk_prefix chunk_suffix output_dir headers).
Local Abbreviation download :=
  (download_chunks remote base_url chunk_prefix chunk_suffix output_dir
     headers).
Local Abbreviation disk := (on_disk chunk_prefix chunk_suffix output_dir).
Local Abbreviation get :=
  (fetch remote base_url chunk_prefix chunk_suffix headers).
Local Abbreviation get_ok :=
  (fetch_ok remote base_url chunk_prefix chunk_suffix headers).
Local Abbreviation get_content :=
  (fetch_content remote base_url chunk_prefix chunk_suffix headers).
Local Abbreviation avail :=
  (available remote base_url chunk_prefix chunk_suffix output_dir headers).
Local Abbreviation fetched_ixs :=
  (fetched chunk_prefix chunk_suffix output_dir).
Local Abbreviation seg_events :=
  (segment_events remote base_url chunk_prefix chunk_suffix output_dir
     headers).
Local Abbreviation end_events :=
  (stop_events base_url chunk_prefix chunk_suffix output_dir headers).
Local Abbreviation events :=
  (run_events remote base_url chunk_prefix chunk_suffix output_dir headers).
Local Abbreviation files_after :=
  (run_files remote base_url chunk_prefix chunk_suffix output_dir headers).
Local Abbreviation stops :=
  (stops_at remote base_url chunk_prefix chunk_suffix output_dir headers).
Local Abbreviation value := (return_value chunk_prefix chunk_suffix output_dir).
Local Abbreviation result :=
  (run_result remote base_url chunk_prefix chunk_suffix output_dir headers).
Local Abbreviation store :=
  (store_all remote base_url chunk_prefix chunk_suffix output_dir headers).

Lemma on_disk_insert_ne (fs : gmap string string) (n i : Z) (c : string) :
  i ≠ n → disk (<[output_file n := c]> fs) i = disk fs i.
Proof.
  intros Hne. unfold on_disk. rewrite lookup_insert_ne; [done|].
  intros Heq. by apply output_file_of_inj in Heq.
Qed.

Lemma on_disk_None (fs : gmap string string) (n : Z) :
  disk fs n = false ↔ fs !! output_file n = None.
Proof.
  unfold on_disk. rewrite bool_decide_eq_false, <-eq_None_not_Some. done.
Qed.

(** The segment is on disk: it is skipped. *)
Lemma loop_body_skip (l : locals) (w : world) :
  disk (files w) (chunk_number l) = true →
  ∃ w', body l w
        = (Ret (Continue, Locals (chunk_number l + 1) (downloaded_any l)), w')
    ∧ files w' = files w
    ∧ trace w' = trace w ++ [EvExists (output_file (chunk_number l))].
Proof.
  intros Hd. unfold on_disk in Hd. unfold loop_body. run_monad.
  rewrite Hd. eauto.
Qed.

(** The segment is not on disk and the server answers 200: it is stored. *)
Lemma loop_body_store (l : locals) (w : world) :
  disk (files w) (chunk_number l) = false →
  get_ok (chunk_number l) = true →
  ∃ w', body l w = (Ret (Continue, Locals (chunk_number l + 1) true), w')
    ∧ files w'
      = <[output_file (chunk_number l) := get_content (chunk_number l)]>
          (files w)
    ∧ trace w' = trace w ++ seg_events (files w) (chunk_number l).
Proof.
  intros Hd Hok. unfold segment_events. rewrite Hd.
  unfold on_disk in Hd. unfold fetch_ok, fetch_content, fetch in *.
  unfold loop_body. run_monad. rewrite Hd.
  destruct (remote _ _) as [r|e]; [|done]. simpl. rewrite Hok. simpl.
  eexists; split; [done|]. simpl. split.
  - by rewrite lookup_insert_eq, insert_insert_eq.
  - by rewrite <-!app_assoc.
Qed.

(** The segment is not on disk and the server answers another status: the
    loop ends. *)
Lemma loop_body_break (l : locals) (w : world) (r : response) :
  disk (files w) (chunk_number l) = false →
  get (chunk_number l) = Responded r →
  status_code r ≠ 200 →
  ∃ w', body l w = (Ret (Break, l), w')
    ∧ files w' = files w
    ∧ trace w' = trace w ++ end_events (chunk_number l).
Proof.
  intros Hd Hr Hs. unfold on_disk in Hd. unfold fetch in Hr.
  unfold loop_body. run_monad. rewrite Hd, Hr. simpl.
  apply Z.eqb_neq in Hs. rewrite Hs. simpl.
  eexists; split; [done|]. simpl. by rewrite <-app_assoc.
Qed.

(** The segment is not on disk and the request raises: so does the body. *)
Lemma loop_body_raise (l : locals) (w : world) (e : exn) :
  disk (files w) (chunk_number l) = false →
  get (chunk_number l) = Failed e →
  ∃ w', body l w = (Raise e, w')
    ∧ files w' = files w
    ∧ trace w' = trace w ++ end_events (chunk_number l).
Proof.
  intros Hd Hr. unfold on_disk in Hd. unfold fetch in Hr.
  unfold loop_body. run_monad. rewrite Hd, Hr. simpl.
  eexists; split; [done|]. simpl. by rewrite <-app_assoc.
Qed.

(** An available segment: the loop goes on to the next index. *)
Lemma loop_body_pass (l : locals) (w : world) :
  avail (files w) (chunk_number l) = true →
  ∃ w', body l w
        = (Ret (Continue,
                Locals (chunk_number l + 1)
                  (downloaded_any l
                   || negb (disk (files w) (chunk_number l)))), w')
    ∧ files w'
      = (if disk (files w) (chunk_number l) then files w
         else <[output_file (chunk_number l)
                 := get_content (chunk_number l)]> (files w))
    ∧ trace w' = trace w ++ seg_events (files w) (chunk_number l).
Proof.
  unfold available. intros Ha.
  destruct (disk (files w) (chunk_number l)) eqn:Hd.
  - destruct (loop_body_skip l w Hd) as (w' & -> & ? & ?).
    exists w'. rewrite orb_false_r. unfold segment_events. by rewrite Hd.
  - destruct (loop_body_store l w Hd Ha) as (w' & -> & ? & ?).
    exists w'. by rewrite orb_true_r.
Qed.

(** ** The loop *)

Lemma fetched_nil (fs : gmap string string) (n t : Z) :
  t ≤ n → fetched_ixs fs n t = [].
Proof. intros. unfold fetched. by rewrite seqZ_nil by lia. Qed.

Lemma fetched_cons (fs : gmap string string) (n t : Z) :
  n < t →
  fetched_ixs fs n t
  = (if disk fs n then [] else [n]) ++ fetched_ixs fs (n + 1) t.
Proof.
  intros. unfold fetched. rewrite seqZ_cons by lia. rewrite filter_cons.
  replace (Z.succ n) with (n + 1) by lia.
  replace (Z.pred (t - n)) with (t - (n + 1)) by lia.
  destruct (disk fs n); by case_decide.
Qed.

Lemma run_events_nil (fs : gmap string string) (n t : Z) :
  t ≤ n → events fs n t = [].
Proof. intros. unfold run_events. by rewrite seqZ_nil by lia. Qed.

Lemma run_events_cons (fs : gmap string string) (n t : Z) :
  n < t → events fs n t = seg_events fs n ++ events fs (n + 1) t.
Proof.
  intros. unfold run_events. rewrite seqZ_cons by lia. rewrite bind_cons.
  replace (Z.succ n) with (n + 1) by lia.
  by replace (Z.pred (t - n)) with (t - (n + 1)) by lia.
Qed.

(** The loop goes past [len] available indices in [len] iterations.  [fs0]
    are the files when the run started: storing a segment does not change
    which of the later segments are on disk. *)
Lemma while_true_pass (len fuel : nat) (n : Z) (d : bool) (w : world)
    (fs0 : gmap string string) :
  (∀ i, n ≤ i → disk (files w) i = disk fs0 i) →
  (∀ i, n ≤ i < n + Z.of_nat len → avail fs0 i = true) →
  (len ≤ fuel)%nat →
  ∃ w', loop fuel (Locals n d) w
        = loop (fuel - len)
            (Locals (n + Z.of_nat len)
               (d || bool_decide (fetched_ixs fs0 n (n + Z.of_nat len) ≠ []))) w'
    ∧ files w' = store (files w) (fetched_ixs fs0 n (n + Z.of_nat len))
    ∧ trace w' = trace w ++ events fs0 n (n + Z.of_nat len)
    ∧ (∀ i, n + Z.of_nat len ≤ i → disk (files w') i = disk fs0 i).
Proof.
  revert fuel n d w. induction len as [|len IH]; intros fuel n d w Hfs Hav Hf.
  - exists w. rewrite Nat.sub_0_r, Z.add_0_r.
    rewrite fetched_nil, run_events_nil by lia. simpl.
    rewrite orb_false_r, app_nil_r. auto.
  - destruct fuel as [|fuel]; [lia|].
    assert (avail (files w) n = true) as Hn.
    { unfold available. rewrite Hfs by lia. apply Hav. lia. }
    destruct (loop_body_pass (Locals n d) w Hn) as (w1 & Hb & Hf1 & Ht1).
    simpl in Hb, Hf1, Ht1.
    destruct (IH fuel (n + 1) (d || negb (disk (files w) n)) w1)
      as (w' & Hl & Hf' & Ht' & Hd'); [| |lia|].
    { intros i Hi. rewrite Hf1. destruct (disk (files w) n).
      - apply Hfs; lia.
      - rewrite on_disk_insert_ne by lia. apply Hfs; lia. }
    { intros i Hi. apply Hav. lia. }
    replace (n + Z.of_nat (S len)) with (n + 1 + Z.of_nat len) by lia.
    rewrite (fetched_cons fs0 n), (run_events_cons fs0 n) by lia.
    unfold segment_events in *. rewrite (Hfs n) in * by lia.
    exists w'. split_and!.
    + simpl. unfold mbind at 1, M_bind at 1. rewrite Hb, Hl.
      destruct (disk fs0 n); simpl.
      * by rewrite orb_false_r.
      * by rewrite orb_true_r.
    + rewrite Hf', Hf1. by destruct (disk fs0 n).
    + rewrite Ht', Ht1. by rewrite <-app_assoc.
    + intros i Hi. apply Hd'. lia.
Qed.

(** Within any bound, either every index is available or there is a first
    one that is not. *)
Lemma first_unavailable (k : nat) (fs : gmap string string) (n : Z) :
  (∀ i, n ≤ i < n + Z.of_nat k → avail fs i = true)
  ∨ (∃ t, t < n + Z.of_nat k ∧ stops fs n t).
Proof.
  induction k as [|k [IH|(t & Ht & Hs)]].
  - left. intros i Hi. lia.
  - destruct (avail fs (n + Z.of_nat k)) eqn:Hk.
    + left. intros i Hi.
      destruct (decide (i = n + Z.of_nat k)) as [->|]; [done|].
      apply IH. lia.
    + right. exists (n + Z.of_nat k). split; [lia|].
      split_and!; [lia|exact IH|done].
  - right. exists t. split; [lia|done].
Qed.

Lemma stops_at_unique (fs : gmap string string) (n t1 t2 : Z) :
  stops fs n t1 → stops fs n t2 → t1 = t2.
Proof.
  intros (H1 & Ha1 & Hn1) (H2 & Ha2 & Hn2).
  destruct (Z.lt_trichotomy t1 t2) as [Hlt|[->|Hlt]]; [|done|].
  - rewrite Ha2 in Hn1 by lia. done.
  - rewrite Ha1 in Hn2 by lia. done.
Qed.

(** A loop that ends at [t] takes [t - n + 1] iterations. *)
Lemma while_true_stops (fuel : nat) (n t : Z) (d : bool) (w : world) :
  stops (files w) n t →
  (Z.to_nat (t - n) < fuel)%nat →
  ∃ w', loop fuel (Locals n d) w
        = (match get t with
           | Responded _ =>
               Ret (Locals t
                      (d || bool_decide (fetched_ixs (files w) n t ≠ [])))
           | Failed e => Raise e
           end, w')
    ∧ files w' = files_after (files w) n t
    ∧ trace w' = trace w ++ events (files w) n t ++ end_events t.
Proof.
  intros (Hnt & Hav & Hstop) Hfuel.
  destruct (while_true_pass (Z.to_nat (t - n)) fuel n d w (files w))
    as (w1 & Hl & Hf1 & Ht1 & Hd1); [done| |lia|].
  { intros i Hi. apply Hav. lia. }
  replace (n + Z.of_nat (Z.to_nat (t - n))) with t in * by lia.
  destruct (fuel - Z.to_nat (t - n))%nat as [|k] eqn:Hk; [lia|].
  apply orb_false_iff in Hstop as [Hdisk Hget].
  assert (disk (files w1) t = false) as Hdisk1 by (rewrite Hd1; [done|lia]).
  set (d1 := d || bool_decide (fetched_ixs (files w) n t ≠ [])) in *.
  rewrite Hl. simpl. unfold mbind at 1, M_bind at 1.
  unfold fetch_ok in Hget. destruct (get t) as [r|e] eqn:Hr.
  - apply Z.eqb_neq in Hget.
    destruct (loop_body_break (Locals t d1) w1 r Hdisk1 Hr Hget)
      as (w' & -> & Hf' & Ht').
    exists w'. split_and!; [done|by rewrite Hf'|].
    rewrite Ht', Ht1. by rewrite <-app_assoc.
  - destruct (loop_body_raise (Locals t d1) w1 e Hdisk1 Hr)
      as (w' & -> & Hf' & Ht').
    exists w'. split_and!; [done|by rewrite Hf'|].
    rewrite Ht', Ht1. by rewrite <-app_assoc.
Qed.

(** A loop that meets only available indices uses up its fuel. *)
Lemma while_true_out_of_fuel (fuel : nat) (n : Z) (d : bool) (w : world) :
  (∀ i, n ≤ i < n + Z.of_nat fuel → avail (files w) i = true) →
  ∃ w', loop fuel (Locals n d) w = (OutOfFuel, w')
    ∧ files w' = files_after (files w) n (n + Z.of_nat fuel)
    ∧ trace w' = trace w ++ events (files w) n (n + Z.of_nat fuel).
Proof.
  intros Hav.
  destruct (while_true_pass fuel fuel n d w (files w))
    as (w1 & Hl & Hf1 & Ht1 & _); [done|done|lia|].
  exists w1. rewrite Hl, Nat.sub_diag. done.
Qed.

(** ** [download_chunks] *)

Lemma download_chunks_stops (fuel : nat) (start t : Z) (w : world) :
  stops (files w) start t →
  (Z.to_nat (t - start) < fuel)%nat →
  ∃ w', download fuel start w = (result (files w) start t, w')
    ∧ files w' = files_after (files w) start t
    ∧ trace w'
      = trace w ++ EvMakedirs output_dir
                   :: events (files w) start t ++ end_events t.
Proof.
  intros Hs Hfuel. unfold download_chunks, run_result, return_value.
  unfold mbind at 1 2 3, M_bind at 1 2 3. unfold os_makedirs, print at 1, emit.
  cbn [files trace console].
  set (w0 := World (files w) _ _).
  destruct (while_true_stops fuel start t false w0 Hs Hfuel)
    as (w1 & Hl & Hf1 & Ht1).
  rewrite Hl. simpl in *.
  destruct (get t) as [r|e].
  - simpl. destruct (bool_decide (_ ≠ [])); run_monad;
      (eexists; split; [done|]); simpl; rewrite Ht1, <-app_assoc; done.
  - exists w1. rewrite Ht1, <-app_assoc. done.
Qed.

Lemma download_chunks_out_of_fuel (fuel : nat) (start : Z) (w : world) :
  (∀ i, start ≤ i < start + Z.of_nat fuel → avail (files w) i = true) →
  ∃ w', download fuel start w = (OutOfFuel, w')
    ∧ files w' = files_after (files w) start (start + Z.of_nat fuel)
    ∧ trace w'
      = trace w ++ EvMakedirs output_dir
                   :: events (files w) start (start + Z.of_nat fuel).
Proof.
  intros Hav. unfold download_chunks.
  unfold mbind at 1 2 3, M_bind at 1 2 3. unfold os_makedirs, print at 1, emit.
  cbn [files trace console].
  set (w0 := World (files w) _ _).
  destruct (while_true_out_of_fuel fuel start false w0 Hav)
    as (w1 & Hl & Hf1 & Ht1).
  rewrite Hl. simpl in *.
  exists w1. rewrite Ht1, <-app_assoc. done.
Qed.

(** Every run is one of the two. *)
Lemma download_chunks_cases (fuel : nat) (start : Z) (w : world) :
  (∃ t w', stops (files w) start t
     ∧ download fuel start w = (result (files w) start t, w')
     ∧ files w' = files_after (files w) start t
     ∧ trace w'
       = trace w ++ EvMakedirs output_dir
                    :: events (files w) start t ++ end_events t)
  ∨ (∃ w', (∀ i, start ≤ i < start + Z.of_nat fuel
              → avail (files w) i = true)
     ∧ download fuel start w = (OutOfFuel, w')
     ∧ files w' = files_after (files w) start (start + Z.of_nat fuel)
     ∧ trace w'
       = trace w ++ EvMakedirs output_dir
                    :: events (files w) start (start + Z.of_nat fuel)).
Proof.
  destruct (first_unavailable fuel (files w) start) as [Hav|(t & Ht & Hs)].
  - right. destruct (download_chunks_out_of_fuel fuel start w Hav)
      as (w' & ? & ? & ?). eauto.
  - left. assert (start ≤ t) by apply Hs.
    destruct (download_chunks_stops fuel start t w Hs) as (w' & ? & ? & ?);
      [lia|]. exists t, w'. eauto.
Qed.

(** ** The returned index *)

(** C1, as amended: when the requests for [start], ..., [start + N - 1]
    are answered with status 200, the request for [start + N] fails, and
    none of these segment files is on disk, then: if the failing request
    is answered (with a status other than 200), [download_chunks] returns
    [start + N - 1] if [N > 0] and 0 if [N = 0]; if it fails by raising,
    [download_chunks] returns nothing and that exception leaves it. *)
Theorem download_chunks_fresh_series (start : Z) (N fuel : nat) (w : world) :
  (∀ i, start ≤ i < start + Z.of_nat N →
        ∃ c, get i = Responded (Response 200 c)) →
  get_ok (start + Z.of_nat N) = false →
  (∀ i, start ≤ i ≤ start + Z.of_nat N → files w !! output_file i = None) →
  (N < fuel)%nat →
  (download fuel start w).1
  = match get (start + Z.of_nat N) with
    | Responded _ =>
        Ret (if decide (0 < N)%nat then start + Z.of_nat N - 1 else 0)
    | Failed e => Raise e
    end.
Proof.
  intros Hok Hfail Hfresh Hfuel.
  assert (stops (files w) start (start + Z.of_nat N)) as Hstop.
  { split_and!; [lia| |].
    - intros i Hi. unfold available, fetch_ok.
      destruct (Hok i Hi) as [c ->]. apply orb_true_r.
    - unfold available. rewrite Hfail.
      apply orb_false_iff. split; [|done].
      apply on_disk_None, Hfresh. lia. }
  destruct (download_chunks_stops fuel start _ w Hstop) as (w' & -> & _);
    [lia|].
  simpl. unfold run_result, return_value.
  destruct (get (start + Z.of_nat N)); [|done]. f_equal.
  case_decide.
  - rewrite fetched_cons by lia.
    assert (disk (files w) start = false) as ->
      by (apply on_disk_None, Hfresh; lia).
    done.
  - by rewrite fetched_nil by lia.
Qed.

(** ** The probes of a run *)

Global Instance output_file_of_Inj :
  Inj (=) (=) (output_file_of chunk_prefix chunk_suffix output_dir).
Proof. intros n m. apply output_file_of_inj. Qed.

Global Instance url_of_Inj :
  Inj (=) (=) (url_of base_url chunk_prefix chunk_suffix).
Proof. intros n m. apply url_of_inj. Qed.

Lemma checked_paths_app (tr1 tr2 : list event) :
  checked_paths (tr1 ++ tr2) = checked_paths tr1 ++ checked_paths tr2.
Proof. apply omap_app. Qed.

Lemma requested_urls_app (tr1 tr2 : list event) :
  requested_urls (tr1 ++ tr2) = requested_urls tr1 ++ requested_urls tr2.
Proof. apply omap_app. Qed.

Lemma checked_paths_run_events (fs : gmap string string) (n t : Z) :
  checked_paths (events fs n t) = output_file <$> seqZ n (t - n).
Proof.
  unfold run_events. induction (seqZ n (t - n)) as [|i l IH]; [done|].
  rewrite bind_cons, checked_paths_app, IH. unfold segment_events.
  by destruct (disk fs i).
Qed.

Lemma requested_urls_run_events (fs : gmap string string) (n t : Z) :
  requested_urls (events fs n t) = url <$> fetched_ixs fs n t.
Proof.
  unfold run_events, fetched. induction (seqZ n (t - n)) as [|i l IH]; [done|].
  rewrite bind_cons, requested_urls_app, IH, filter_cons.
  unfold segment_events. destruct (disk fs i); by case_decide.
Qed.

(** The indices probed by a run that ends at [t]: all of [start], ..., [t]
    are checked on disk, and those not on disk are requested. *)
Lemma checked_paths_stop (fs : gmap string string) (n t : Z) :
  n ≤ t →
  checked_paths (events fs n t ++ end_events t)
  = output_file <$> seqZ n (t - n + 1).
Proof.
  intros. rewrite checked_paths_app, checked_paths_run_events.
  rewrite (seqZ_app n (t - n) 1), fmap_app by lia. simpl.
  by replace (n + (t - n)) with t by lia.
Qed.

Lemma requested_urls_stop (fs : gmap string string) (n t : Z) :
  n ≤ t → disk fs t = false →
  requested_urls (events fs n t ++ end_events t)
  = url <$> filter (λ i, disk fs i = false) (seqZ n (t - n + 1)).
Proof.
  intros ? Ht. rewrite requested_urls_app, requested_urls_run_events.
  unfold fetched. rewrite (seqZ_app n (t - n) 1), filter_app, fmap_app by lia.
  replace (n + (t - n)) with t by lia.
  rewrite (seqZ_cons t 1), (seqZ_nil (Z.succ t)) by lia.
  by rewrite (filter_cons_True _ t).
Qed.

(** C9: the indices probed in a run are [start], [start + 1], ... without
    gap or repetition: each is checked on disk once, and requested once if
    it is not on disk; every probed index but the last is on disk or
    fetched, and a run that ends does so at the first index that is
    neither. *)
Theorem download_chunks_probes (fuel : nat) (start : Z) (w : world) :
  ∃ (k : Z) (tr : list event),
    trace (download fuel start w).2 = trace w ++ EvMakedirs output_dir :: tr
    ∧ 0 ≤ k
    ∧ checked_paths tr = output_file <$> seqZ start k
    ∧ requested_urls tr
      = url <$> filter (λ i, disk (files w) i = false) (seqZ start k)
    ∧ NoDup (checked_paths tr)
    ∧ NoDup (requested_urls tr)
    ∧ (∀ i, start ≤ i < start + k - 1 → avail (files w) i = true)
    ∧ match (download fuel start w).1 with
      | Ret _ | Raise _ => 0 < k ∧ avail (files w) (start + k - 1) = false
      | OutOfFuel =>
          k = Z.of_nat fuel
          ∧ ∀ i, start ≤ i < start + k → avail (files w) i = true
      end.
Proof.
  assert (∀ k, NoDup (output_file <$> seqZ start k)) as Hnd1.
  { intros k. apply (NoDup_fmap_2 _), NoDup_seqZ. }
  assert (∀ k, NoDup (url <$> filter (λ i, disk (files w) i = false)
                                (seqZ start k))) as Hnd2.
  { intros k. apply (NoDup_fmap_2 _), NoDup_filter, NoDup_seqZ. }
  destruct (download_chunks_cases fuel start w)
    as [(t & w' & Hs & -> & _ & Ht)|(w' & Hav & -> & _ & Ht)]; simpl.
  - destruct Hs as (Hle & Hav & Hstop).
    assert (disk (files w) t = false) as Hd
      by (by apply orb_false_iff in Hstop as [? ?]).
    exists (t - start + 1), (events (files w) start t ++ end_events t).
    rewrite checked_paths_stop, requested_urls_stop by done.
    replace (start + (t - start + 1) - 1) with t by lia.
    split_and!; try done; try lia.
    unfold run_result. destruct (get t); (split; [lia|done]).
  - exists (Z.of_nat fuel), (events (files w) start (start + Z.of_nat fuel)).
    rewrite checked_paths_run_events, requested_urls_run_events.
    unfold fetched.
    replace (start + Z.of_nat fuel - start) with (Z.of_nat fuel) by lia.
    split_and!; try done; try lia.
    intros i Hi. apply Hav. lia.
Qed.

(** C2, as amended: a run that reaches, within its fuel, a first index [t]
    that is neither on disk nor fetched, the request being answered,
    returns; and a run that returns found such a [t] and stopped there.
    If [t] is the start index, nothing was retrieved and the value is 0.
    If some index before [t] was fetched in this run, the value is [t - 1],
    the segments found on disk on the way counting towards it; that value
    is not 0 when the start index is at least 1. *)
Theorem download_chunks_return (fuel : nat) (start : Z) (w : world) :
  (∀ t r, stops (files w) start t → get t = Responded r →
          (Z.to_nat (t - start) < fuel)%nat →
          (download fuel start w).1 = Ret (value (files w) start t))
  ∧ (∀ v, (download fuel start w).1 = Ret v →
      ∃ t tr,
        stops (files w) start t
        ∧ trace (download fuel start w).2 = trace w ++ tr ++ end_events t
        ∧ v = value (files w) start t
        ∧ (t = start → v = 0)
        ∧ ((∃ i, start ≤ i < t ∧ disk (files w) i = false) →
           v = t - 1 ∧ (1 ≤ start → v ≠ 0))).
Proof.
  split.
  - intros t r Hs Hr Hfuel.
    destruct (download_chunks_stops fuel start t w Hs Hfuel) as (w' & -> & _).
    simpl. unfold run_result. by rewrite Hr.
  - destruct (download_chunks_cases fuel start w)
      as [(t & w' & Hs & -> & _ & Ht)|(w' & Hav & -> & _ & Ht)]; simpl;
      [|done].
    unfold run_result, return_value. destruct (get t) as [r'|e]; [|done].
    intros v [= <-].
    exists t, (EvMakedirs output_dir :: events (files w) start t).
    split_and!; [done|by rewrite Ht|done| |].
    + intros ->. by rewrite fetched_nil by lia.
    + intros (i & Hi & Hd). rewrite bool_decide_true.
      * split; [done|lia].
      * intros Hnil. assert (i ∈ fetched_ixs (files w) start t) as Hin.
        { unfold fetched. apply list_elem_of_filter. split; [done|].
          apply elem_of_seqZ. lia. }
        rewrite Hnil in Hin. by apply elem_of_nil in Hin.
Qed.

(** ** End of the series *)

(** C6, as amended: when the loop reaches an index that is not on disk, a
    response with a status other than 200 ends the run with a returned
    value, and an exception raised by the request leaves
    [download_chunks] as that exception. *)
Theorem download_chunks_end_of_series (fuel : nat) (start t : Z) (w : world) :
  start ≤ t →
  (∀ i, start ≤ i < t → avail (files w) i = true) →
  disk (files w) t = false →
  (Z.to_nat (t - start) < fuel)%nat →
  (∀ r, get t = Responded r → status_code r ≠ 200 →
        (download fuel start w).1 = Ret (value (files w) start t))
  ∧ (∀ e, get t = Failed e → (download fuel start w).1 = Raise e).
Proof.
  intros Hle Hav Hd Hfuel. split.
  - intros r Hr Hst.
    assert (stops (files w) start t) as Hs.
    { split_and!; [done..|]. unfold available, fetch_ok. rewrite Hd, Hr.
      by apply Z.eqb_neq. }
    destruct (download_chunks_stops fuel start t w Hs Hfuel) as (w' & -> & _).
    simpl. unfold run_result. by rewrite Hr.
  - intros e He.
    assert (stops (files w) start t) as Hs.
    { split_and!; [done..|]. unfold available, fetch_ok. by rewrite Hd, He. }
    destruct (download_chunks_stops fuel start t w Hs Hfuel) as (w' & -> & _).
    simpl. unfold run_result. by rewrite He.
Qed.

(** ** What is on disk after a run *)

Lemma store_all_snoc (fs : gmap string string) (l : list Z) (i : Z) :
  store fs (l ++ [i]) = <[output_file i := get_content i]> (store fs l).
Proof. unfold store_all. by rewrite foldl_snoc. Qed.

Lemma store_all_lookup_in (fs : gmap string string) (l : list Z) (i : Z) :
  i ∈ l → store fs l !! output_file i = Some (get_content i).
Proof.
  induction l as [|j l IH] using rev_ind; [by intros ?%elem_of_nil|].
  rewrite store_all_snoc. intros Hin.
  destruct (decide (j = i)) as [->|Hne]; [by rewrite lookup_insert_eq|].
  rewrite lookup_insert_ne by (intros ?%output_file_of_inj; done).
  apply IH. apply elem_of_app in Hin as [?|Hin]; [done|].
  apply list_elem_of_singleton in Hin. congruence.
Qed.

Lemma store_all_lookup_notin (fs : gmap string string) (l : list Z) (i : Z) :
  i ∉ l → store fs l !! output_file i = fs !! output_file i.
Proof.
  induction l as [|j l IH] using rev_ind; [done|].
  rewrite store_all_snoc. intros Hin.
  rewrite not_elem_of_app, list_elem_of_singleton in Hin.
  destruct Hin as [? ?].
  rewrite lookup_insert_ne by (intros ?%output_file_of_inj; done). auto.
Qed.

Lemma replay_app (tr1 tr2 : list event) (fs : gmap string string) :
  replay (tr1 ++ tr2) fs = replay tr2 (replay tr1 fs).
Proof. apply foldl_app. Qed.

Lemma replay_makedirs (d : string) (tr : list event)
    (fs : gmap string string) :
  replay (EvMakedirs d :: tr) fs = replay tr fs.
Proof. done. Qed.

Lemma requested_urls_makedirs (d : string) (tr : list event) :
  requested_urls (EvMakedirs d :: tr) = requested_urls tr.
Proof. done. Qed.

Lemma replay_segment_events (fs0 fs : gmap string string) (i : Z) :
  replay (seg_events fs0 i) fs
  = if disk fs0 i then fs else <[output_file i := get_content i]> fs.
Proof.
  unfold segment_events. destruct (disk fs0 i); [done|]. simpl.
  by rewrite lookup_insert_eq, insert_insert_eq.
Qed.

Lemma replay_run_events (fs0 fs : gmap string string) (n t : Z) :
  replay (events fs0 n t) fs = store fs (fetched_ixs fs0 n t).
Proof.
  unfold run_events, fetched. revert fs.
  induction (seqZ n (t - n)) as [|i l IH]; intros fs; [done|].
  rewrite bind_cons, replay_app, replay_segment_events, IH, filter_cons.
  destruct (disk fs0 i); by case_decide.
Qed.

(** The files at the end of a run are those obtained by applying the
    effects of its trace, one after the other, to the files at its start. *)
Lemma download_chunks_replay (fuel : nat) (start : Z) (w : world) :
  ∃ tr, trace (download fuel start w).2 = trace w ++ tr
    ∧ files (download fuel start w).2 = replay tr (files w).
Proof.
  destruct (download_chunks_cases fuel start w)
    as [(t & w' & Hs & -> & Hf & Ht)|(w' & Hav & -> & Hf & Ht)]; simpl.
  - eexists. split; [exact Ht|].
    by rewrite replay_makedirs, replay_app, replay_run_events.
  - eexists. split; [exact Ht|].
    by rewrite replay_makedirs, replay_run_events.
Qed.

Lemma run_events_split (fs : gmap string string) (n i t : Z) :
  n ≤ i < t →
  events fs n t = events fs n i ++ seg_events fs i ++ events fs (i + 1) t.
Proof.
  intros Hi. rewrite <-(run_events_cons fs i t) by lia. unfold run_events.
  replace (t - n) with ((i - n) + (t - i)) by lia.
  rewrite seqZ_app, bind_app by lia.
  by replace (n + (i - n)) with i by lia.
Qed.

(** While a segment is being stored there is a moment, after [open] and
    before [write], at which its file exists and is empty. *)
Lemma run_events_opened (fs : gmap string string) (n t i : Z)
    (rest : list event) :
  n ≤ i < t → disk fs i = false →
  ∃ tr', tr' `prefix_of` (EvMakedirs output_dir :: events fs n t ++ rest)
    ∧ replay tr' fs !! output_file i = Some "".
Proof.
  intros Hi Hd.
  exists (EvMakedirs output_dir :: events fs n i
          ++ [EvExists (output_file i); EvGet (url i) (or_empty headers);
              EvOpen (output_file i) ModeWB]).
  split.
  - exists (EvWrite (output_file i) (get_content i)
            :: events fs (i + 1) t ++ rest).
    rewrite (run_events_split fs n i t) by lia.
    unfold segment_events. rewrite Hd. simpl. f_equal.
    by rewrite <-!app_assoc.
  - rewrite replay_makedirs, replay_app. simpl. apply lookup_insert_eq.
Qed.

(** C8, as amended: a segment is written in place, by opening the target
    path for writing and then writing the content.  At the end of a run,
    every segment that was requested and answered with status 200 is on
    disk with the whole content of the response; during the run there is a
    moment at which its file exists and is empty.  A path that exists when
    a run starts is never requested again, whatever it holds. *)
Theorem download_chunks_stored (fuel : nat) (start : Z) (w : world)
    (tr : list event) (i : Z) :
  trace (download fuel start w).2 = trace w ++ tr →
  (url i ∈ requested_urls tr → get_ok i = true →
   files (download fuel start w).2 !! output_file i = Some (get_content i)
   ∧ ∃ tr', tr' `prefix_of` tr
       ∧ replay tr' (files w) !! output_file i = Some "")
  ∧ (is_Some (files w !! output_file i) → url i ∉ requested_urls tr).
Proof.
  assert (∀ n t, url i ∈ url <$> fetched_ixs (files w) n t →
    n ≤ i < t ∧ i ∈ fetched_ixs (files w) n t ∧ disk (files w) i = false)
    as Hin.
  { intros n t (j & ->%(inj _) & Hj)%list_elem_of_fmap. split_and!; [| |done|].
    - apply list_elem_of_filter in Hj as [_ Hj%elem_of_seqZ]. lia.
    - apply list_elem_of_filter in Hj as [_ Hj%elem_of_seqZ]. lia.
    - by apply list_elem_of_filter in Hj as [? _]. }
  destruct (download_chunks_cases fuel start w)
    as [(t & w' & Hs & -> & Hf & Ht)|(w' & Hav & -> & Hf & Ht)]; simpl;
    rewrite Ht; intros <-%(inj (app (trace w)));
    rewrite requested_urls_makedirs, ?requested_urls_app,
      requested_urls_run_events; simpl.
  - destruct Hs as (Hle & Hav & [Hdt Hgt]%orb_false_iff). split.
    + intros [Hi|Hi]%elem_of_app Hok.
      * apply Hin in Hi as (Hr & Hi & Hd). split.
        -- rewrite Hf. by apply store_all_lookup_in.
        -- by apply run_events_opened.
      * apply list_elem_of_singleton, (inj _) in Hi. congruence.
    + intros Hsome [Hi|Hi]%elem_of_app.
      * apply Hin in Hi as (_ & _ & Hi). apply on_disk_None in Hi.
        rewrite Hi in Hsome. by apply is_Some_None in Hsome.
      * apply list_elem_of_singleton, (inj _) in Hi. subst i.
        apply on_disk_None in Hdt. rewrite Hdt in Hsome.
        by apply is_Some_None in Hsome.
  - split.
    + intros Hi Hok. apply Hin in Hi as (Hr & Hi & Hd). split.
      * rewrite Hf. by apply store_all_lookup_in.
      * rewrite <-(app_nil_r (events _ _ _)). by apply run_events_opened.
    + intros Hsome Hi. apply Hin in Hi as (_ & _ & Hi).
      apply on_disk_None in Hi.
      rewrite Hi in Hsome. by apply is_Some_None in Hsome.
Qed.
End download_proofs.

(** ** The caller's guard *)

Lemma run_events_no_stage (remote : remote_t)
    (base_url chunk_prefix chunk_suffix output_dir : string)
    (headers : option dict) (fs : gmap string string) (n t : Z) :
  Forall (λ e, starts_manifest_or_merge e = false)
    (run_events remote base_url chunk_prefix chunk_suffix output_dir headers
       fs n t).
Proof.
  unfold run_events. apply Forall_bind, Forall_forall. intros i _.
  unfold segment_events. simpl. destruct (on_disk _ _ _ _ _); repeat constructor.
Qed.

(** [download_chunks] neither opens a file for writing text nor starts a
    process. *)
Lemma download_chunks_no_stage (remote : remote_t)
    (base_url chunk_prefix chunk_suffix output_dir : string)
    (headers : option dict) (fuel : nat) (start : Z) (w : world) :
  ∃ tr,
    trace (download_chunks remote base_url chunk_prefix chunk_suffix
             output_dir headers fuel start w).2 = trace w ++ tr
    ∧ Forall (λ e, starts_manifest_or_merge e = false) tr.
Proof.
  destruct (download_chunks_cases remote base_url chunk_prefix chunk_suffix
              output_dir headers fuel start w)
    as [(t & w' & Hs & -> & _ & Ht)|(w' & Hav & -> & _ & Ht)]; simpl;
    (eexists; split; [exact Ht|]).
  - apply Forall_cons. split; [done|]. apply Forall_app. split.
    + apply run_events_no_stage.
    + repeat constructor.
  - apply Forall_cons. split; [done|]. apply run_events_no_stage.
Qed.

(** C5: when [download_chunks] returns 0, [main] ends at once: it returns
    normally, the files and the trace are those left by [download_chunks],
    and nothing in the trace of the run opens the manifest or starts the
    merge tool. *)
Theorem main_guard (remote : remote_t) (tool : tool_t) (fuel : nat)
    (w : world) :
  let d := download_chunks remote main_base_url main_chunk_prefix
             main_chunk_suffix main_output_dir (Some main_headers) fuel 1 w in
  let m := main remote tool fuel w in
  d.1 = Ret 0 →
  m.1 = Ret ()
  ∧ files m.2 = files d.2
  ∧ trace m.2 = trace d.2
  ∧ ∃ tr, trace m.2 = trace w ++ tr
      ∧ Forall (λ e, starts_manifest_or_merge e = false) tr.
Proof.
  intros d m Hd.
  destruct (download_chunks_no_stage remote main_base_url main_chunk_prefix
              main_chunk_suffix main_output_dir (Some main_headers) fuel 1 w)
    as (tr & Htr & Hno).
  fold d in Htr. subst m. unfold main. unfold mbind, M_bind.
  fold d. destruct d as [r w1]. simpl in Hd, Htr. subst r. simpl.
  split_and!; [done..|]. by exists tr.
Qed.

(** C10: with [start_chunk = 0], segment 0 answered with status 200 and
    segment 1 with another status, [download_chunks] returns 0 although
    segment 0 is then on disk.  The same value is returned when the server
    has no segment at all, and the caller's steps 2 to 4, given 0, end at
    once: no manifest, no merge. *)
Theorem download_chunks_start_zero (remote remote' : remote_t) (tool : tool_t)
    (base_url chunk_prefix chunk_suffix output_dir : string)
    (headers : option dict) (fuel : nat) (w : world)
    (c : string) (r r' : response) :
  let res := download_chunks remote base_url chunk_prefix chunk_suffix
               output_dir headers fuel 0 w in
  let res' := download_chunks remote' base_url chunk_prefix chunk_suffix
                output_dir headers fuel 0 w in
  let after := main_from_step2 tool 0 res.2 in
  fetch remote base_url chunk_prefix chunk_suffix headers 0
    = Responded (Response 200 c) →
  fetch remote base_url chunk_prefix chunk_suffix headers 1 = Responded r →
  status_code r ≠ 200 →
  fetch remote' base_url chunk_prefix chunk_suffix headers 0 = Responded r' →
  status_code r' ≠ 200 →
  files w !! output_file_of chunk_prefix chunk_suffix output_dir 0 = None →
  files w !! output_file_of chunk_prefix chunk_suffix output_dir 1 = None →
  (1 < fuel)%nat →
  res.1 = Ret 0
  ∧ files res.2 !! output_file_of chunk_prefix chunk_suffix output_dir 0
    = Some c
  ∧ res'.1 = Ret 0
  ∧ files res'.2 !! output_file_of chunk_prefix chunk_suffix output_dir 0
    = None
  ∧ after.1 = Ret ()
  ∧ files after.2 = files res.2
  ∧ trace after.2 = trace res.2.
Proof.
  intros res res' after H0 H1 Hs1 H0' Hs0' Hf0 Hf1 Hfuel.
  apply on_disk_None in Hf0, Hf1.
  assert (stops_at remote base_url chunk_prefix chunk_suffix output_dir
            headers (files w) 0 1) as Hs.
  { split_and!; [done| |].
    - intros i Hi. assert (i = 0) as -> by lia.
      unfold available, fetch_ok. rewrite H0. apply orb_true_r.
    - unfold available, fetch_ok. rewrite H1, Hf1. by apply Z.eqb_neq. }
  assert (stops_at remote' base_url chunk_prefix chunk_suffix output_dir
            headers (files w) 0 0) as Hs'.
  { split_and!; [done|intros i Hi; lia|].
    unfold available, fetch_ok. rewrite H0', Hf0. by apply Z.eqb_neq. }
  destruct (download_chunks_stops remote base_url chunk_prefix chunk_suffix
              output_dir headers fuel 0 1 w Hs) as (w1 & Hw1 & Hfs1 & _);
    [lia|].
  destruct (download_chunks_stops remote' base_url chunk_prefix chunk_suffix
              output_dir headers fuel 0 0 w Hs') as (w1' & Hw1' & Hfs1' & _);
    [lia|].
  assert (fetched chunk_prefix chunk_suffix output_dir (files w) 0 1 = [0])
    as Hfetched.
  { rewrite fetched_cons by lia. rewrite Hf0. by rewrite fetched_nil. }
  subst res res' after. rewrite Hw1, Hw1'. simpl.
  unfold run_result, return_value. rewrite H1, H0', Hfetched.
  rewrite fetched_nil by lia. rewrite Hfs1, Hfs1'.
  unfold run_files. rewrite Hfetched, fetched_nil by lia.
  split_and!; try done.
  - rewrite store_all_lookup_in by (by apply list_elem_of_singleton).
    unfold fetch_content. by rewrite H0.
  - by apply on_disk_None.
Qed.

(** ** The manifest *)

Lemma append_assoc (a b c : string) : (a +:+ b) +:+ c = a +:+ b +:+ c.
Proof.
  induction a as [|x a IH]; [done|].
  change (String x ((a +:+ b) +:+ c) = String x (a +:+ b +:+ c)).
  by f_equal.
Qed.

Lemma append_nil_r (a : string) : a +:+ "" = a.
Proof.
  induction a as [|x a IH]; [done|].
  change (String x (a +:+ "") = String x a). by f_equal.
Qed.

(** Writing the items of a list to an open file appends them in order. *)
Lemma for_each_file_write {A} (g : A → string) (f : string) (l : list A)
    (w : world) (s : string) :
  files w !! f = Some s →
  for_each l (λ i, file_write f (g i)) w
  = (Ret (),
     World (<[f := s +:+ concat_lines (g <$> l)]> (files w))
           (trace w ++ (EvWrite f <$> (g <$> l))) (console w)).
Proof.
  revert w s. induction l as [|i l IH]; intros w s Hs; simpl.
  - unfold mret, M_ret. rewrite append_nil_r, app_nil_r.
    rewrite insert_id by done. by destruct w.
  - unfold mbind at 1, M_bind at 1. unfold file_write at 1. rewrite Hs. simpl.
    erewrite IH by (simpl; apply lookup_insert_eq). simpl.
    by rewrite insert_insert_eq, append_assoc, <-app_assoc.
Qed.









(** What [create_concat_file] does to the world. *)
Lemma create_concat_file_run (output_dir : string) (k : Z)
    (chunk_prefix chunk_suffix : string) (w : world) :
  let path := os_path_join output_dir "file_list.txt" in
  let lines := manifest_lines chunk_prefix chunk_suffix k in
  create_concat_file output_dir k chunk_prefix chunk_suffix w
  = (Ret path,
     World (<[path := concat_lines lines]> (files w))
           (trace w ++ EvOpen path ModeW :: (EvWrite path <$> lines))
           (console w ++ ["Criando arquivo de concatenação: " +:+ path])).
Proof.
  intros path lines. unfold create_concat_file. fold path.
  unfold mbind at 1 2 3, M_bind at 1 2 3.
  unfold print at 1, open_file at 1. cbn [files trace console].
  unfold range. replace (k + 1 - 1) with k by lia.
  erewrite (for_each_file_write (manifest_line chunk_prefix chunk_suffix))
    by (simpl; apply lookup_insert_eq).
  fold (manifest_lines chunk_prefix chunk_suffix k). fold lines. simpl.
  by rewrite insert_insert_eq, <-app_assoc.
Qed.


(** ** The merge *)

(** C7, as amended: when the tool exits with a status other than 0,
    [merge_chunks_into_mp4] raises [CalledProcessError] with that status
    and the command line, and with no captured output: what the tool
    printed went to the console.  When it exits with status 0 the merge
    returns normally, and when the executable is missing it raises
    [FileNotFoundError]. *)
Theorem merge_chunks_into_mp4_result (tool : tool_t)
    (concat_file_path output_mp4 : string) (w : world) :
  let cmd := ffmpeg_command concat_file_path output_mp4 in
  let res := merge_chunks_into_mp4 tool concat_file_path output_mp4 w in
  trace res.2 = trace w ++ [EvRun cmd]
  ∧ match tool cmd (files w) with
    | ToolNotFound => res.1 = Raise (FileNotFoundError "ffmpeg")
    | Exited rc out fs' =>
        out ∈ console res.2
        ∧ files res.2 = fs'
        ∧ if decide (rc = 0) then res.1 = Ret ()
          else res.1 = Raise (CalledProcessError rc cmd None None)
               ∧ captured_output (CalledProcessError rc cmd None None) = []
    end.
Proof.
  intros cmd res. subst res. unfold merge_chunks_into_mp4. fold cmd.
  unfold mbind, M_bind, print, subprocess_run. cbn [files trace console].
  destruct (tool cmd (files w)) as [|rc out fs']; [done|].
  case_decide as Hrc.
  - subst rc. simpl. split_and!; [done| |done..].
    rewrite !elem_of_app, !list_elem_of_singleton. auto.
  - apply Z.eqb_neq in Hrc. rewrite Hrc. simpl. split_and!; [done| |done..].
    rewrite !elem_of_app, !list_elem_of_singleton. auto.
Qed.

(** ** The theorems at work, and what the code does not do *)

Lemma download_chunks_fresh_series_witness :
  (download_chunks three_segments "http://host/" "video" ".ts" "./chunks"
     None 10 1 empty_world).1 = Ret 3.
Proof.
  apply (download_chunks_fresh_series three_segments "http://host/" "video"
           ".ts" "./chunks" None 1 3 10 empty_world).
  - intros i Hi. exists "data".
    assert (i = 1 ∨ i = 2 ∨ i = 3) as [->|[->| ->]] by lia; reflexivity.
  - reflexivity.
  - intros i Hi. apply lookup_empty.
  - lia.
Defined.

(** C1 fails: the requests for segments 1 to 3 succeed and the request for
    segment 4 fails, by a refused connection; no segment is on disk; and
    [download_chunks] does not return 3: it raises. *)
Lemma download_chunks_fresh_series_cex :
  let get := fetch three_then_unreachable "http://host/" "video" ".ts" None in
  let res := download_chunks three_then_unreachable "http://host/" "video"
               ".ts" "./chunks" None 10 1 empty_world in
  get 1 = Responded (Response 200 "data")
  ∧ get 2 = Responded (Response 200 "data")
  ∧ get 3 = Responded (Response 200 "data")
  ∧ get 4 = Failed (ConnectionError "Connection refused")
  ∧ files empty_world = ∅
  ∧ res.1 = Raise (ConnectionError "Connection refused")
  ∧ res.1 ≠ Ret 3.
Proof.
  split_and!; try reflexivity. intros Hres. vm_compute in Hres. done.
Qed.

(** C3: a first run against an empty directory returns 3; the second run
    finds segments 1 to 3 on disk, requests segment 4 only, and returns 0. *)
Lemma download_chunks_second_run :
  let first := download_chunks three_segments "http://host/" "video" ".ts"
                 "./chunks" None 10 1 empty_world in
  let second := download_chunks three_segments "http://host/" "video" ".ts"
                  "./chunks" None 10 1 first.2 in
  first.1 = Ret 3
  ∧ second.1 = Ret 0
  ∧ requested_urls (drop (length (trace first.2)) (trace second.2))
    = ["http://host/video4.ts"].
Proof. vm_compute. done. Qed.

(** C2 fails: a run from index 0 that fetches segment 0 returns 0, and so
    does a run that finds segments 1 and 2 on disk and fetches nothing. *)
Lemma download_chunks_zero_cex :
  let fetched_one := download_chunks segment_zero "http://host/" "video"
                       ".ts" "./chunks" None 10 0 empty_world in
  let found_two := download_chunks no_segments "http://host/" "video" ".ts"
                     "./chunks" None 10 1 two_on_disk in
  fetched_one.1 = Ret 0
  ∧ files fetched_one.2 !! "./chunks/video0.ts" = Some "data"
  ∧ requested_urls (trace fetched_one.2)
    = ["http://host/video0.ts"; "http://host/video1.ts"]
  ∧ found_two.1 = Ret 0
  ∧ checked_paths (trace found_two.2)
    = ["./chunks/video1.ts"; "./chunks/video2.ts"; "./chunks/video3.ts"]
  ∧ requested_urls (trace found_two.2) = ["http://host/video3.ts"].
Proof. vm_compute. done. Qed.

Lemma download_chunks_return_witness :
  ∃ t tr,
    stops_at three_segments "http://host/" "video" ".ts" "./chunks" None
      (files empty_world) 1 t
    ∧ trace (download_chunks three_segments "http://host/" "video" ".ts"
               "./chunks" None 10 1 empty_world).2
      = trace empty_world ++ tr
        ++ stop_events "http://host/" "video" ".ts" "./chunks" None t
    ∧ 3 = return_value "video" ".ts" "./chunks" (files empty_world) 1 t
    ∧ (t = 1 → 3 = 0)
    ∧ ((∃ i, 1 ≤ i < t
          ∧ on_disk "video" ".ts" "./chunks" (files empty_world) i = false) →
       3 = t - 1 ∧ (1 ≤ 1 → 3 ≠ 0)).
Proof.
  apply (download_chunks_return three_segments "http://host/" "video" ".ts"
           "./chunks" None 10 1 empty_world).
  vm_compute. reflexivity.
Defined.

(** C6 fails: when the server cannot be reached, [download_chunks] does not
    return; the exception of the request leaves it. *)
Lemma download_chunks_unreachable_cex :
  let res := download_chunks unreachable "http://host/" "video" ".ts"
               "./chunks" None 10 1 empty_world in
  res.1 = Raise (ConnectionError "Connection refused")
  ∧ ¬ ∃ v, res.1 = Ret v.
Proof.
  split; [vm_compute; reflexivity|]. intros [v Hv]. vm_compute in Hv. done.
Qed.

Lemma download_chunks_end_of_series_witness :
  (∀ r, fetch three_segments "http://host/" "video" ".ts" None 4
        = Responded r →
        status_code r ≠ 200 →
        (download_chunks three_segments "http://host/" "video" ".ts"
           "./chunks" None 10 1 empty_world).1
        = Ret (return_value "video" ".ts" "./chunks" (files empty_world) 1 4))
  ∧ (∀ e, fetch three_segments "http://host/" "video" ".ts" None 4
          = Failed e →
          (download_chunks three_segments "http://host/" "video" ".ts"
             "./chunks" None 10 1 empty_world).1 = Raise e).
Proof.
  apply (download_chunks_end_of_series three_segments "http://host/" "video"
           ".ts" "./chunks" None 10 1 4 empty_world).
  - lia.
  - intros i Hi.
    assert (i = 1 ∨ i = 2 ∨ i = 3) as [->|[->| ->]] by lia; reflexivity.
  - reflexivity.
  - vm_compute. lia.
Defined.

(** C7 fails: the tool exits with status 1 after printing a diagnostic, and
    the exception that reaches the caller carries no captured output. *)
Lemma merge_chunks_into_mp4_no_capture_cex :
  let cmd := ffmpeg_command "./chunks/file_list.txt" "out.mp4" in
  let res := merge_chunks_into_mp4 failing_tool "./chunks/file_list.txt"
               "out.mp4" empty_world in
  failing_tool cmd (files empty_world)
  = Exited 1 "Invalid data found when processing input" (files empty_world)
  ∧ res.1 = Raise (CalledProcessError 1 cmd None None)
  ∧ ¬ ∃ e, res.1 = Raise e
         ∧ "Invalid data found when processing input" ∈ captured_output e.
Proof.
  split_and!; [reflexivity|reflexivity|].
  intros (e & He & Hin). vm_compute in He. injection He as <-.
  simpl in Hin. by apply elem_of_nil in Hin.
Qed.

(** C8 fails: in the run below, after the fourth effect segment 1 exists
    and is empty, while the response holds ["data"].  A run started on the
    files as they are then never requests segment 1 and leaves it empty. *)
Lemma download_chunks_truncated_cex :
  let res := download_chunks three_segments "http://host/" "video" ".ts"
               "./chunks" None 10 1 empty_world in
  let seen := replay (take 4 (trace res.2)) (files empty_world) in
  let again := download_chunks three_segments "http://host/" "video" ".ts"
                 "./chunks" None 10 1 (World seen [] []) in
  take 4 (trace res.2) `prefix_of` trace res.2
  ∧ fetch three_segments "http://host/" "video" ".ts" None 1
    = Responded (Response 200 "data")
  ∧ seen !! "./chunks/video1.ts" = Some ""
  ∧ again.1 = Ret 3
  ∧ requested_urls (trace again.2)
    = ["http://host/video2.ts"; "http://host/video3.ts";
       "http://host/video4.ts"]
  ∧ files again.2 !! "./chunks/video1.ts" = Some "".
Proof.
  split; [apply prefix_take|]. vm_compute. done.
Qed.

Lemma download_chunks_stored_witness :
  let res := download_chunks three_segments "http://host/" "video" ".ts"
               "./chunks" None 10 1 empty_world in
  ("http://host/video2.ts" ∈ requested_urls (trace res.2) →
   fetch_ok three_segments "http://host/" "video" ".ts" None 2 = true →
   files res.2 !! "./chunks/video2.ts" = Some "data"
   ∧ ∃ tr', tr' `prefix_of` trace res.2
       ∧ replay tr' (files empty_world) !! "./chunks/video2.ts" = Some "")
  ∧ (is_Some (files empty_world !! "./chunks/video2.ts") →
     "http://host/video2.ts" ∉ requested_urls (trace res.2)).
Proof.
  apply (download_chunks_stored three_segments "http://host/" "video" ".ts"
           "./chunks" None 10 1 empty_world
           (trace (download_chunks three_segments "http://host/" "video"
                     ".ts" "./chunks" None 10 1 empty_world).2) 2).
  reflexivity.
Defined.


Lemma main_guard_witness :
  let m := main no_segments working_tool 10 empty_world in
  m.1 = Ret ()
  ∧ files m.2 = files (download_chunks no_segments main_base_url
                         main_chunk_prefix main_chunk_suffix main_output_dir
                         (Some main_headers) 10 1 empty_world).2
  ∧ trace m.2 = trace (download_chunks no_segments main_base_url
                         main_chunk_prefix main_chunk_suffix main_output_dir
                         (Some main_headers) 10 1 empty_world).2
  ∧ ∃ tr, trace m.2 = trace empty_world ++ tr
      ∧ Forall (λ e, starts_manifest_or_merge e = false) tr.
Proof.
  apply (main_guard no_segments working_tool 10 empty_world).
  vm_compute. reflexivity.
Defined.

Lemma download_chunks_start_zero_witness :
  let res := download_chunks segment_zero "http://host/" "video" ".ts"
               "./chunks" None 10 0 empty_world in
  let res' := download_chunks no_segments "http://host/" "video" ".ts"
                "./chunks" None 10 0 empty_world in
  let after := main_from_step2 working_tool 0 res.2 in
  res.1 = Ret 0
  ∧ files res.2 !! "./chunks/video0.ts" = Some "data"
  ∧ res'.1 = Ret 0
  ∧ files res'.2 !! "./chunks/video0.ts" = None
  ∧ after.1 = Ret ()
  ∧ files after.2 = files res.2
  ∧ trace after.2 = trace res.2.
Proof.
  apply (download_chunks_start_zero segment_zero no_segments working_tool
           "http://host/" "video" ".ts" "./chunks" None 10 empty_world
           "data" (Response 404 "") (Response 404 ""));
    try reflexivity; try done. lia.
Defined.

(** * Further properties of the code *)

(** ** Lists of indices *)

Lemma filter_none {A} (P : A → Prop) `{∀ x, Decision (P x)} (l : list A) :
  (∀ x, x ∈ l → ¬ P x) → filter P l = [].
Proof.
  induction l as [|x l IH]; intros Hl; [done|].
  rewrite filter_cons_False by (apply Hl; left).
  apply IH. intros y Hy. apply Hl. by right.
Qed.

Lemma filter_all {A} (P : A → Prop) `{∀ x, Decision (P x)} (l : list A) :
  (∀ x, x ∈ l → P x) → filter P l = l.
Proof.
  induction l as [|x l IH]; intros Hl; [done|].
  rewrite filter_cons_True by (apply Hl; left).
  f_equal. apply IH. intros y Hy. apply Hl. by right.
Qed.

Section download_more.
Context (remote : remote_t)
        (base_url chunk_prefix chunk_suffix output_dir : string)
        (headers : option dict).

Local Abbreviation output_file :=
  (output_file_of chunk_prefix chunk_suffix output_dir).
Local Abbreviation url := (url_of base_url chunk_prefix chunk_suffix).
Local Abbreviation download :=
  (download_chunks remote base_url chunk_prefix chunk_suffix output_dir
     headers).
Local Abbreviation disk := (on_disk chunk_prefix chunk_suffix output_dir).
Local Abbreviation get :=
  (fetch remote base_url chunk_prefix chunk_suffix headers).
Local Abbreviation get_ok :=
  (fetch_ok remote base_url chunk_prefix chunk_suffix headers).
Local Abbreviation get_content :=
  (fetch_content remote base_url chunk_prefix chunk_suffix headers).
Local Abbreviation avail :=
  (available remote base_url chunk_prefix chunk_suffix output_dir headers).
Local Abbreviation fetched_ixs :=
  (fetched chunk_prefix chunk_suffix output_dir).
Local Abbreviation end_events :=
  (stop_events base_url chunk_prefix chunk_suffix output_dir headers).
Local Abbreviation events :=
  (run_events remote base_url chunk_prefix chunk_suffix output_dir headers).
Local Abbreviation files_after :=
  (run_files remote base_url chunk_prefix chunk_suffix output_dir headers).
Local Abbreviation stops :=
  (stops_at remote base_url chunk_prefix chunk_suffix output_dir headers).
Local Abbreviation value := (return_value chunk_prefix chunk_suffix output_dir).
Local Abbreviation result :=
  (run_result remote base_url chunk_prefix chunk_suffix output_dir headers).
Local Abbreviation store :=
  (store_all remote base_url chunk_prefix chunk_suffix output_dir headers).

Lemma elem_of_fetched (fs : gmap string string) (n t i : Z) :
  i ∈ fetched_ixs fs n t ↔ n ≤ i < t ∧ disk fs i = false.
Proof.
  unfold fetched. rewrite list_elem_of_filter, elem_of_seqZ.
  split; intros [? ?]; split; (done || lia).
Qed.

Lemma fetched_all_on_disk (fs : gmap string string) (n t : Z) :
  (∀ i, n ≤ i < t → disk fs i = true) → fetched_ixs fs n t = [].
Proof.
  intros Hd. unfold fetched. apply filter_none.
  intros i Hi%elem_of_seqZ. rewrite Hd by lia. done.
Qed.

Lemma fetched_none_on_disk (fs : gmap string string) (n t : Z) :
  (∀ i, n ≤ i < t → disk fs i = false) →
  fetched_ixs fs n t = seqZ n (t - n).
Proof.
  intros Hd. unfold fetched. apply filter_all.
  intros i Hi%elem_of_seqZ. apply Hd. lia.
Qed.

Lemma fetched_app (fs : gmap string string) (n k t : Z) :
  n ≤ k ≤ t →
  fetched_ixs fs n t = fetched_ixs fs n k ++ fetched_ixs fs k t.
Proof.
  intros Hk. unfold fetched.
  replace (t - n) with ((k - n) + (t - k)) by lia.
  rewrite seqZ_app, filter_app by lia.
  by replace (n + (k - n)) with k by lia.
Qed.

(** Storing segments changes the paths of these segments only. *)
Lemma store_all_lookup_other (fs : gmap string string) (l : list Z)
    (p : string) :
  (∀ i, i ∈ l → output_file i ≠ p) → store fs l !! p = fs !! p.
Proof.
  induction l as [|j l IH] using rev_ind; intros Hl; [done|].
  rewrite store_all_snoc, lookup_insert_ne.
  - apply IH. intros i Hi. apply Hl, elem_of_app. by left.
  - apply Hl, elem_of_app. right. by apply list_elem_of_singleton.
Qed.

(** The file of index [i] after the loop went from [n] to [t]. *)
Lemma run_files_lookup (fs : gmap string string) (n t i : Z) :
  files_after fs n t !! output_file i
  = if decide (n ≤ i < t ∧ disk fs i = false) then Some (get_content i)
    else fs !! output_file i.
Proof.
  unfold run_files. case_decide as Hi.
  - by apply store_all_lookup_in, elem_of_fetched.
  - apply store_all_lookup_notin. by rewrite elem_of_fetched.
Qed.

Lemma run_files_on_disk (fs : gmap string string) (n t i : Z) :
  disk (files_after fs n t) i
  = disk fs i || bool_decide (n ≤ i < t).
Proof.
  unfold on_disk at 1. rewrite run_files_lookup.
  destruct (disk fs i) eqn:Hd; simpl.
  - rewrite decide_False by (intros [_ ?]; done).
    exact Hd.
  - case_decide as Hi.
    + rewrite bool_decide_true by eauto. symmetry. apply bool_decide_true.
      tauto.
    + rewrite (bool_decide_false (n ≤ i < t)) by tauto. exact Hd.
Qed.

(** X2: [download_chunks] never overwrites or removes a file: every file
    that exists when a run starts is there, unchanged, when it ends.  A
    file that the run adds is the segment file of an index from
    [start_chunk] on, whose request was answered with status 200, and it
    holds the content of that response. *)
Theorem download_chunks_keeps_files (fuel : nat) (start : Z) (w : world) :
  files w ⊆ files (download fuel start w).2
  ∧ ∀ p c, files (download fuel start w).2 !! p = Some c →
      files w !! p = Some c
      ∨ ∃ i, start ≤ i ∧ p = output_file i ∧ files w !! p = None
          ∧ get_ok i = true ∧ c = get_content i.
Proof.
  assert (∀ t, (∀ i, start ≤ i < t → avail (files w) i = true) →
    files w ⊆ files_after (files w) start t
    ∧ ∀ p c, files_after (files w) start t !! p = Some c →
        files w !! p = Some c
        ∨ ∃ i, start ≤ i ∧ p = output_file i ∧ files w !! p = None
            ∧ get_ok i = true ∧ c = get_content i) as Hgen.
  { intros t Hav. split.
    - apply map_subseteq_spec. intros p c Hp. unfold run_files.
      rewrite store_all_lookup_other; [done|].
      intros i [_ Hi%on_disk_None]%elem_of_fetched Heq.
      rewrite Heq in Hi. congruence.
    - intros p c Hp. unfold run_files in Hp.
      destruct (decide (p ∈ output_file <$> fetched_ixs (files w) start t))
        as [(i & -> & Hi)%list_elem_of_fmap|Hnot].
      + right. exists i. rewrite store_all_lookup_in in Hp by done.
        apply elem_of_fetched in Hi as [Hr Hd].
        pose proof (Hav i Hr) as Ha. unfold available in Ha.
        rewrite Hd in Ha. simpl in Ha.
        split_and!; [lia|done|by apply on_disk_None|done|congruence].
      + left. rewrite store_all_lookup_other in Hp; [done|].
        intros i Hi <-. apply Hnot, list_elem_of_fmap. eauto. }
  destruct (download_chunks_cases remote base_url chunk_prefix chunk_suffix
              output_dir headers fuel start w)
    as [(t & w' & Hs & -> & Hf & _)|(w' & Hav & -> & Hf & _)]; simpl;
    rewrite Hf.
  - apply Hgen, Hs.
  - by apply Hgen.
Qed.

(** X3: the response that ends the loop is thrown away: whatever its status
    (other than 200) and body, or if the request raised, no file is left
    for the terminating index, which a later run will therefore probe
    again. *)
Theorem download_chunks_discards_last (fuel : nat) (start t : Z)
    (w : world) :
  stops (files w) start t →
  (Z.to_nat (t - start) < fuel)%nat →
  files (download fuel start w).2 !! output_file t = None.
Proof.
  intros Hs Hfuel.
  destruct (download_chunks_stops remote base_url chunk_prefix chunk_suffix
              output_dir headers fuel start t w Hs Hfuel)
    as (w' & -> & Hf & _). simpl.
  rewrite Hf, run_files_lookup, decide_False by lia.
  destruct Hs as (_ & _ & [Hd _]%orb_false_iff). by apply on_disk_None.
Qed.

(** X4: a value returned by [download_chunks] is 0 or at least
    [start_chunk]; so with [start_chunk >= 1] it is never negative, and a
    caller that tests for 0 passes on an index of at least 1. *)
Theorem download_chunks_value_range (fuel : nat) (start v : Z) (w : world) :
  (download fuel start w).1 = Ret v → v = 0 ∨ start ≤ v.
Proof.
  destruct (download_chunks_cases remote base_url chunk_prefix chunk_suffix
              output_dir headers fuel start w)
    as [(t & w' & Hs & -> & _)|(w' & Hav & -> & _)]; simpl; [|done].
  unfold run_result, return_value. destruct (get t); [|done].
  intros [= <-]. case_bool_decide as Hf; [right|by left].
  destruct (decide (t ≤ start)); [|lia].
  by rewrite fetched_nil in Hf by lia.
Qed.

(** X5: when [download_chunks] returns a value [v] other than 0, the
    segment file of every index from [start_chunk] to [v] is on disk. *)
Theorem download_chunks_segments_present (fuel : nat) (start v : Z)
    (w : world) :
  (download fuel start w).1 = Ret v → v ≠ 0 →
  ∀ i, start ≤ i ≤ v →
    is_Some (files (download fuel start w).2 !! output_file i).
Proof.
  destruct (download_chunks_cases remote base_url chunk_prefix chunk_suffix
              output_dir headers fuel start w)
    as [(t & w' & Hs & -> & Hfs & _)|(w' & Hav & -> & _)]; simpl; [|done].
  rewrite Hfs. unfold run_result, return_value. destruct (get t); [|done].
  intros [= <-] Hv i Hi. case_bool_decide as Hf; [|done].
  destruct Hs as (_ & Hav & _).
  assert (disk (files_after (files w) start t) i = true) as Hd.
  { rewrite run_files_on_disk. rewrite (bool_decide_true (start ≤ i < t))
      by lia. apply orb_true_r. }
  unfold on_disk in Hd. by apply bool_decide_eq_true in Hd.
Qed.

(** X6: the loop has no bound of its own: a run ends, given enough
    iterations, exactly when some index from [start_chunk] on is neither on
    disk nor answered with status 200.  Against a server that answers 200
    for every index the run never ends. *)
Theorem download_chunks_terminates_iff (start : Z) (w : world) :
  (∃ fuel, (download fuel start w).1 ≠ OutOfFuel)
  ↔ (∃ i, start ≤ i ∧ avail (files w) i = false).
Proof.
  split.
  - intros [fuel Hres].
    destruct (download_chunks_cases remote base_url chunk_prefix chunk_suffix
                output_dir headers fuel start w)
      as [(t & w' & Hs & _)|(w' & Hav & Hw' & _)].
    + exists t. destruct Hs as (? & _ & ?). done.
    + rewrite Hw' in Hres. done.
  - intros (i & Hi & Hna).
    destruct (first_unavailable remote base_url chunk_prefix chunk_suffix
                output_dir headers (Z.to_nat (i - start + 1)) (files w) start)
      as [Hav|(t & Ht & Hs)].
    + rewrite Hav in Hna by lia. done.
    + exists (S (Z.to_nat (t - start))).
      destruct (download_chunks_stops remote base_url chunk_prefix
                  chunk_suffix output_dir headers (S (Z.to_nat (t - start)))
                  start t w Hs) as (w' & -> & _); [lia|].
      simpl. unfold run_result. by destruct (get t).
Qed.

Lemma checked_paths_makedirs (d : string) (tr : list event) :
  checked_paths (EvMakedirs d :: tr) = checked_paths tr.
Proof. done. Qed.

(** X7: resuming.  When the segments of the first [m] indices are on disk,
    the next [N > 0] are not and are answered with status 200, and the one
    after is not on disk and refused, [download_chunks] checks all
    [m + N + 1] paths, requests only the [N + 1] that are not on disk, and
    returns the last stored index. *)
Theorem download_chunks_resume (start : Z) (m N fuel : nat) (w : world) :
  let k := start + Z.of_nat m in
  let t := k + Z.of_nat N in
  (∀ i, start ≤ i < k → is_Some (files w !! output_file i)) →
  (∀ i, k ≤ i ≤ t → files w !! output_file i = None) →
  (∀ i, k ≤ i < t → get_ok i = true) →
  (∃ r, get t = Responded r ∧ status_code r ≠ 200) →
  (0 < N)%nat → (m + N < fuel)%nat →
  (download fuel start w).1 = Ret (t - 1)
  ∧ ∃ tr, trace (download fuel start w).2 = trace w ++ tr
      ∧ checked_paths tr
        = output_file <$> seqZ start (Z.of_nat m + Z.of_nat N + 1)
      ∧ requested_urls tr = url <$> seqZ k (Z.of_nat N + 1).
Proof.
  intros k t Hdisk Hfree Hok (r & Hr & Hst) HN Hfuel.
  assert (∀ i, start ≤ i < k → disk (files w) i = true) as Hd1.
  { intros i Hi. unfold on_disk. by apply bool_decide_eq_true, Hdisk. }
  assert (∀ i, k ≤ i < t + 1 → disk (files w) i = false) as Hd2.
  { intros i Hi. apply on_disk_None, Hfree. lia. }
  assert (stops (files w) start t) as Hs.
  { split_and!; [lia| |].
    - intros i Hi. unfold available.
      destruct (decide (i < k)); [by rewrite Hd1 by lia|].
      rewrite Hok by lia. apply orb_true_r.
    - unfold available, fetch_ok. rewrite Hd2, Hr by lia.
      by apply Z.eqb_neq. }
  destruct (download_chunks_stops remote base_url chunk_prefix chunk_suffix
              output_dir headers fuel start t w Hs) as (w' & -> & _ & Ht);
    [lia|]. simpl.
  split.
  - unfold run_result, return_value. rewrite Hr.
    rewrite (fetched_app (files w) start k t) by lia.
    rewrite fetched_all_on_disk, fetched_none_on_disk by (intros; auto with lia).
    rewrite (seqZ_cons k) by lia. simpl. done.
  - eexists. split; [exact Ht|].
    rewrite checked_paths_makedirs, requested_urls_makedirs.
    rewrite checked_paths_stop by lia.
    rewrite requested_urls_stop by (lia || (apply Hd2; lia)).
    split.
    + do 2 f_equal. lia.
    + f_equal.
      replace (seqZ start (t - start + 1))
        with (seqZ start ((t + 1) - start)) by (f_equal; lia).
      fold (fetched_ixs (files w) start (t + 1)).
      rewrite (fetched_app (files w) start k (t + 1)) by lia.
      rewrite fetched_all_on_disk, fetched_none_on_disk by done.
      simpl. f_equal. lia.
Qed.

(** X8: running again.  After a run that ended at index [t], a second run
    with the same arguments checks the same paths, requests the URL of [t]
    only, and leaves the files as they are. *)
Theorem download_chunks_rerun (fuel : nat) (start t : Z) (w : world) :
  let first := download fuel start w in
  let second := download fuel start first.2 in
  stops (files w) start t →
  (Z.to_nat (t - start) < fuel)%nat →
  files second.2 = files first.2
  ∧ ∃ tr, trace second.2 = trace first.2 ++ tr
      ∧ checked_paths tr = output_file <$> seqZ start (t - start + 1)
      ∧ requested_urls tr = [url t].
Proof.
  intros first second Hs Hfuel. subst second first.
  destruct (download_chunks_stops remote base_url chunk_prefix chunk_suffix
              output_dir headers fuel start t w Hs Hfuel)
    as (w1 & -> & Hf1 & _). simpl.
  destruct Hs as (Hle & Hav & [Hdt Hgt]%orb_false_iff).
  assert (∀ i, start ≤ i < t → disk (files w1) i = true) as Hd1.
  { intros i Hi. rewrite Hf1, run_files_on_disk.
    rewrite (bool_decide_true (start ≤ i < t)) by done. apply orb_true_r. }
  assert (disk (files w1) t = false) as Hdt1.
  { rewrite Hf1, run_files_on_disk, Hdt.
    by rewrite bool_decide_false by lia. }
  assert (stops (files w1) start t) as Hs1.
  { split_and!; [done| |].
    - intros i Hi. unfold available. by rewrite Hd1.
    - unfold available. by rewrite Hdt1, Hgt. }
  destruct (download_chunks_stops remote base_url chunk_prefix chunk_suffix
              output_dir headers fuel start t w1 Hs1 Hfuel)
    as (w2 & -> & Hf2 & Ht2). simpl.
  assert (fetched_ixs (files w1) start t = []) as Hnone
    by (by apply fetched_all_on_disk).
  split.
  - rewrite Hf2. unfold run_files. by rewrite Hnone.
  - eexists. split; [exact Ht2|].
    rewrite checked_paths_makedirs, requested_urls_makedirs.
    rewrite checked_paths_stop by done. split; [done|].
    rewrite requested_urls_app, requested_urls_run_events, Hnone. done.
Qed.

(** X9: the effects of a run are confined: apart from creating the output
    directory, it only checks, opens in binary mode and writes segment
    paths of indices from [start_chunk] on, writes to them nothing but the
    content fetched for that index, requests only the URLs of such indices,
    always with the given headers, and starts no process. *)
Theorem download_chunks_confined (fuel : nat) (start : Z) (w : world) :
  ∃ tr, trace (download fuel start w).2 = trace w ++ tr
    ∧ Forall (λ e,
        match e with
        | EvMakedirs d => d = output_dir
        | EvExists p => ∃ i, start ≤ i ∧ p = output_file i
        | EvGet u h => h = or_empty headers ∧ ∃ i, start ≤ i ∧ u = url i
        | EvOpen p mode =>
            mode = ModeWB ∧ ∃ i, start ≤ i ∧ p = output_file i
        | EvWrite p c =>
            ∃ i, start ≤ i ∧ p = output_file i ∧ c = get_content i
        | EvRun _ => False
        end) tr.
Proof.
  set (P := λ e : event, match e with
        | EvMakedirs d => d = output_dir
        | EvExists p => ∃ i, start ≤ i ∧ p = output_file i
        | EvGet u h => h = or_empty headers ∧ ∃ i, start ≤ i ∧ u = url i
        | EvOpen p mode =>
            mode = ModeWB ∧ ∃ i, start ≤ i ∧ p = output_file i
        | EvWrite p c =>
            ∃ i, start ≤ i ∧ p = output_file i ∧ c = get_content i
        | EvRun _ => False
        end).
  assert (∀ t, Forall P (events (files w) start t)) as Hev.
  { intros t. unfold run_events. apply Forall_bind, Forall_forall.
    intros i Hi%elem_of_seqZ. unfold segment_events. simpl.
    assert (start ≤ i) by lia.
    destruct (disk (files w) i); repeat constructor; simpl; eauto. }
  destruct (download_chunks_cases remote base_url chunk_prefix chunk_suffix
              output_dir headers fuel start w)
    as [(t & w' & Hs & -> & _ & Ht)|(w' & Hav & -> & _ & Ht)]; simpl;
    (eexists; split; [exact Ht|]).
  - assert (start ≤ t) by apply Hs.
    apply Forall_cons. split; [done|]. apply Forall_app. split; [done|].
    repeat constructor; simpl; eauto.
  - apply Forall_cons. split; [done|]. done.
Qed.
End download_more.

(** X1: names never collide: for every prefix, suffix, directory and base
    URL, two different indices have different chunk names, different local
    paths and different URLs. *)
Theorem segment_names_distinct
    (base_url chunk_prefix chunk_suffix output_dir : string) (n m : Z) :
  n ≠ m →
  chunk_name_of chunk_prefix chunk_suffix n
  ≠ chunk_name_of chunk_prefix chunk_suffix m
  ∧ output_file_of chunk_prefix chunk_suffix output_dir n
    ≠ output_file_of chunk_prefix chunk_suffix output_dir m
  ∧ url_of base_url chunk_prefix chunk_suffix n
    ≠ url_of base_url chunk_prefix chunk_suffix m.
Proof.
  intros Hne. split_and!; intros Heq; apply Hne.
  - by apply chunk_name_of_inj in Heq.
  - by apply output_file_of_inj in Heq.
  - by apply url_of_inj in Heq.
Qed.

(** ** The manifest builder and the driver *)

(** X10: with an outcome of 0 or less, [create_concat_file] still creates (or
    truncates) the manifest: it is left empty, nothing is written to it. *)
Theorem create_concat_file_empty (output_dir : string) (k : Z)
    (chunk_prefix chunk_suffix : string) (w : world) :
  let path := os_path_join output_dir "file_list.txt" in
  let res := create_concat_file output_dir k chunk_prefix chunk_suffix w in
  k ≤ 0 →
  res.1 = Ret path
  ∧ files res.2 !! path = Some ""
  ∧ trace res.2 = trace w ++ [EvOpen path ModeW].
Proof.
  intros path res Hk. subst res. rewrite create_concat_file_run.
  fold path. unfold manifest_lines. rewrite seqZ_nil by lia. simpl.
  by rewrite lookup_insert_eq.
Qed.

(** X11: [create_concat_file] replaces whatever the manifest path held and
    touches no other file; its result does not depend on the files it
    finds, and running it again with the same arguments changes nothing. *)
Theorem create_concat_file_overwrites (output_dir : string) (k : Z)
    (chunk_prefix chunk_suffix : string) (w w' : world) :
  let path := os_path_join output_dir "file_list.txt" in
  let res := create_concat_file output_dir k chunk_prefix chunk_suffix w in
  (∀ q, q ≠ path → files res.2 !! q = files w !! q)
  ∧ files (create_concat_file output_dir k chunk_prefix chunk_suffix w').2
      !! path
    = files res.2 !! path
  ∧ files (create_concat_file output_dir k chunk_prefix chunk_suffix res.2).2
    = files res.2.
Proof.
  intros path res. subst res. rewrite !create_concat_file_run.
  fold path. simpl. split_and!.
  - intros q Hq. by rewrite lookup_insert_ne.
  - by rewrite !lookup_insert_eq.
  - by rewrite insert_insert_eq.
Qed.

(** Steps 3 and 4 of [main], for an outcome other than 0. *)
Lemma main_from_step2_run (tool : tool_t) (v : Z) (w : world) :
  let path := os_path_join main_output_dir "file_list.txt" in
  let cmd := ffmpeg_command path main_output_mp4 in
  let lines := manifest_lines main_chunk_prefix main_chunk_suffix v in
  let fs := <[path := concat_lines lines]> (files w) in
  let started := ["Criando arquivo de concatenação: " +:+ path;
                  "Iniciando a conversão para " +:+ main_output_mp4
                  +:+ "..."] in
  v ≠ 0 →
  ∃ r w', main_from_step2 tool v w = (r, w')
    ∧ trace w' = trace w ++ EvOpen path ModeW :: (EvWrite path <$> lines)
                 ++ [EvRun cmd]
    ∧ match tool cmd fs with
      | ToolNotFound =>
          r = Raise (FileNotFoundError "ffmpeg") ∧ files w' = fs
          ∧ console w' = console w ++ started
      | Exited rc out fs' =>
          files w' = fs'
          ∧ if decide (rc = 0)
            then r = Ret ()
                 ∧ last (console w') = Some "Processo concluído com sucesso!"
                 ∧ console w'
                   = console w ++ started
                     ++ [out;
                         "Conversão finalizada! Arquivo gerado: "
                         +:+ main_output_mp4;
                         "Processo concluído com sucesso!"]
            else r = Raise (CalledProcessError rc cmd None None)
                 ∧ last (console w') = Some out
                 ∧ console w' = console w ++ started ++ [out]
      end.
Proof.
  intros path cmd lines fs started Hv. unfold main_from_step2.
  apply Z.eqb_neq in Hv. rewrite Hv.
  unfold mbind at 1, M_bind at 1. rewrite create_concat_file_run.
  fold path lines. unfold merge_chunks_into_mp4. fold cmd.
  unfold mbind, M_bind, print, subprocess_run. cbn [files trace console].
  fold fs. destruct (tool cmd fs) as [|rc out fs']; simpl.
  - do 2 eexists. split; [done|]. simpl.
    split; [by rewrite <-app_assoc|]. split_and!; [done..|].
    by rewrite <-!app_assoc.
  - case_decide as Hrc.
    + subst rc. simpl. do 2 eexists. split; [done|]. simpl.
      split; [by rewrite <-app_assoc|].
      split_and!; [done..|apply last_snoc|by rewrite <-!app_assoc].
    + apply Z.eqb_neq in Hrc. rewrite Hrc. simpl.
      do 2 eexists. split; [done|]. simpl.
      split; [by rewrite <-app_assoc|].
      split_and!; [done..|apply last_snoc|by rewrite <-!app_assoc].
Qed.


(** X13: the whole of [main] on a sound series.  When segments 1 to [N > 0]
    are answered with status 200, segment [N + 1] is refused, none of them
    is on disk and the tool exits with 0 whatever files it finds, [main]
    returns normally, having written the manifest of [N] lines and started
    the tool exactly once, after the download. *)
Theorem main_success (remote : remote_t) (tool : tool_t) (N fuel : nat)
    (w : world) :
  let get := fetch remote main_base_url main_chunk_prefix main_chunk_suffix
               (Some main_headers) in
  let output_file := output_file_of main_chunk_prefix main_chunk_suffix
                       main_output_dir in
  let path := os_path_join main_output_dir "file_list.txt" in
  let cmd := ffmpeg_command path main_output_mp4 in
  let lines := manifest_lines main_chunk_prefix main_chunk_suffix
                 (Z.of_nat N) in
  let m := main remote tool fuel w in
  (∀ i, 1 ≤ i ≤ Z.of_nat N → ∃ c, get i = Responded (Response 200 c)) →
  (∃ r, get (Z.of_nat N + 1) = Responded r ∧ status_code r ≠ 200) →
  (∀ i, 1 ≤ i ≤ Z.of_nat N + 1 → files w !! output_file i = None) →
  (∀ fs, ∃ out fs', tool cmd fs = Exited 0 out fs') →
  (0 < N)%nat → (N < fuel)%nat →
  m.1 = Ret ()
  ∧ last (console m.2) = Some "Processo concluído com sucesso!"
  ∧ ∃ tr, trace m.2
          = trace w ++ tr ++ EvOpen path ModeW :: (EvWrite path <$> lines)
            ++ [EvRun cmd]
      ∧ Forall (λ e, starts_manifest_or_merge e = false) tr
      ∧ requested_urls tr
        = url_of main_base_url main_chunk_prefix main_chunk_suffix
          <$> seqZ 1 (Z.of_nat N + 1).
Proof.
  intros get output_file path cmd lines m Hok (r & Hr & Hst) Hfree Htool
    HN Hfuel.
  assert (stops_at remote main_base_url main_chunk_prefix main_chunk_suffix
            main_output_dir (Some main_headers) (files w) 1 (Z.of_nat N + 1))
    as Hs.
  { split_and!; [lia| |].
    - intros i Hi. unfold available, fetch_ok. fold get.
      destruct (Hok i) as [c ->]; [lia|]. apply orb_true_r.
    - unfold available, fetch_ok. fold get. rewrite Hr.
      apply orb_false_iff. split.
      + apply on_disk_None, Hfree. lia.
      + by apply Z.eqb_neq. }
  destruct (download_chunks_stops remote main_base_url main_chunk_prefix
              main_chunk_suffix main_output_dir (Some main_headers) fuel 1 _
              w Hs) as (w1 & Hd & _ & Ht1); [lia|].
  assert (fetched main_chunk_prefix main_chunk_suffix main_output_dir
            (files w) 1 (Z.of_nat N + 1) = seqZ 1 (Z.of_nat N)) as Hfetched.
  { rewrite fetched_none_on_disk; [f_equal; lia|].
    intros i Hi. apply on_disk_None, Hfree. lia. }
  unfold run_result, return_value in Hd. fold get in Hd.
  rewrite Hr, Hfetched in Hd.
  rewrite bool_decide_true in Hd
    by (rewrite seqZ_cons by lia; done).
  replace (Z.of_nat N + 1 - 1) with (Z.of_nat N) in Hd by lia.
  subst m.
  change (main remote tool fuel w)
    with (match download_chunks remote main_base_url main_chunk_prefix
                  main_chunk_suffix main_output_dir (Some main_headers)
                  fuel 1 w with
          | (Ret a, w') => main_from_step2 tool a w'
          | (Raise e, w') => (Raise e, w')
          | (OutOfFuel, w') => (OutOfFuel, w')
          end).
  rewrite Hd.
  destruct (main_from_step2_run tool (Z.of_nat N) w1)
    as (res & w2 & -> & Htr & Hres); [lia|].
  fold path cmd lines in Htr, Hres.
  destruct (Htool (<[path := concat_lines lines]> (files w1)))
    as (out & fs' & Hexit).
  rewrite Hexit in Hres. destruct Hres as (_ & Hret & Hlast & _). simpl.
  split_and!; [done..|].
  eexists. split; [rewrite Htr, Ht1, <-app_assoc; reflexivity|]. split.
  - apply Forall_cons. split; [done|]. apply Forall_app. split.
    + apply run_events_no_stage.
    + repeat constructor.
  - rewrite requested_urls_makedirs, requested_urls_stop.
    + f_equal.
      replace (Z.of_nat N + 1 - 1 + 1) with (Z.of_nat N + 1 + 1 - 1) by lia.
      fold (fetched main_chunk_prefix main_chunk_suffix main_output_dir
              (files w) 1 (Z.of_nat N + 1 + 1)).
      rewrite fetched_none_on_disk; [f_equal; lia|].
      intros i Hi. apply on_disk_None, Hfree. lia.
    + lia.
    + apply on_disk_None, Hfree. lia.
Qed.

(** ** The further properties at work *)

Lemma download_chunks_discards_last_witness :
  files (download_chunks partial_content "http://host/" "video" ".ts"
           "./chunks" None 10 1 empty_world).2 !! "./chunks/video1.ts" = None.
Proof.
  apply (download_chunks_discards_last partial_content "http://host/" "video"
           ".ts" "./chunks" None 10 1 1 empty_world).
  - split_and!; [lia|intros i Hi; lia|reflexivity].
  - vm_compute. lia.
Defined.

Lemma download_chunks_value_range_witness : 3 = 0 ∨ 1 ≤ 3.
Proof.
  apply (download_chunks_value_range three_segments "http://host/" "video"
           ".ts" "./chunks" None 10 1 3 empty_world).
  vm_compute. reflexivity.
Defined.

Lemma download_chunks_segments_present_witness :
  is_Some (files (download_chunks three_segments "http://host/" "video"
                    ".ts" "./chunks" None 10 1 empty_world).2
           !! output_file_of "video" ".ts" "./chunks" 2).
Proof.
  apply (download_chunks_segments_present three_segments "http://host/"
           "video" ".ts" "./chunks" None 10 1 3 empty_world).
  - vm_compute. reflexivity.
  - lia.
  - lia.
Defined.

Lemma download_chunks_resume_witness :
  (download_chunks three_segments "http://host/" "video" ".ts" "./chunks"
     None 10 1 two_on_disk).1 = Ret 3
  ∧ ∃ tr,
      trace (download_chunks three_segments "http://host/" "video" ".ts"
               "./chunks" None 10 1 two_on_disk).2
      = trace two_on_disk ++ tr
      ∧ checked_paths tr
        = output_file_of "video" ".ts" "./chunks" <$> seqZ 1 4
      ∧ requested_urls tr = url_of "http://host/" "video" ".ts" <$> seqZ 3 2.
Proof.
  apply (download_chunks_resume three_segments "http://host/" "video" ".ts"
           "./chunks" None 1 2 1 10 two_on_disk).
  - intros i Hi. assert (i = 1 ∨ i = 2) as [->| ->] by lia;
      vm_compute; eauto.
  - intros i Hi. assert (i = 3 ∨ i = 4) as [->| ->] by lia; reflexivity.
  - intros i Hi. assert (i = 3) as -> by lia. reflexivity.
  - exists (Response 404 ""). split; [reflexivity|done].
  - lia.
  - lia.
Defined.

Lemma download_chunks_rerun_witness :
  let first := download_chunks three_segments "http://host/" "video" ".ts"
                 "./chunks" None 10 1 empty_world in
  let second := download_chunks three_segments "http://host/" "video" ".ts"
                  "./chunks" None 10 1 first.2 in
  files second.2 = files first.2
  ∧ ∃ tr, trace second.2 = trace first.2 ++ tr
      ∧ checked_paths tr
        = output_file_of "video" ".ts" "./chunks" <$> seqZ 1 (4 - 1 + 1)
      ∧ requested_urls tr = [url_of "http://host/" "video" ".ts" 4].
Proof.
  apply (download_chunks_rerun three_segments "http://host/" "video" ".ts"
           "./chunks" None 10 1 4 empty_world).
  - split_and!; [lia| |reflexivity].
    intros i Hi. assert (i = 1 ∨ i = 2 ∨ i = 3) as [->|[->| ->]] by lia;
      reflexivity.
  - vm_compute. lia.
Defined.

Lemma segment_names_distinct_witness :
  chunk_name_of "video" ".ts" 1 ≠ chunk_name_of "video" ".ts" 11
  ∧ output_file_of "video" ".ts" "./chunks" 1
    ≠ output_file_of "video" ".ts" "./chunks" 11
  ∧ url_of "http://host/" "video" ".ts" 1
    ≠ url_of "http://host/" "video" ".ts" 11.
Proof.
  apply (segment_names_distinct "http://host/" "video" ".ts" "./chunks" 1 11).
  lia.
Defined.

Lemma create_concat_file_empty_witness :
  let res := create_concat_file "./chunks" 0 "video" ".ts" two_on_disk in
  res.1 = Ret "./chunks/file_list.txt"
  ∧ files res.2 !! "./chunks/file_list.txt" = Some ""
  ∧ trace res.2
    = trace two_on_disk ++ [EvOpen "./chunks/file_list.txt" ModeW].
Proof.
  apply (create_concat_file_empty "./chunks" 0 "video" ".ts" two_on_disk).
  lia.
Defined.

Lemma main_success_witness :
  let m := main main_series working_tool 10 empty_world in
  let path := "./chunks/file_list.txt" in
  let cmd := ffmpeg_command path main_output_mp4 in
  let lines := manifest_lines main_chunk_prefix main_chunk_suffix 2 in
  m.1 = Ret ()
  ∧ last (console m.2) = Some "Processo concluído com sucesso!"
  ∧ ∃ tr, trace m.2
          = trace empty_world ++ tr
            ++ EvOpen path ModeW :: (EvWrite path <$> lines) ++ [EvRun cmd]
      ∧ Forall (λ e, starts_manifest_or_merge e = false) tr
      ∧ requested_urls tr
        = url_of main_base_url main_chunk_prefix main_chunk_suffix
          <$> seqZ 1 (2 + 1).
Proof.
  apply (main_success main_series working_tool 2 10 empty_world).
  - intros i Hi. exists "data".
    assert (i = 1 ∨ i = 2) as [->| ->] by lia; reflexivity.
  - exists (Response 404 ""). split; [reflexivity|done].
  - intros i Hi. apply lookup_empty.
  - intros fs. by exists "", fs.
  - lia.
  - lia.
Defined.
